(** * explodomatica: the sample-buffer pipeline of [explodomatica.c]

    A shallow embedding of the signal-processing functions of
    [src/explodomatica.c].  C [double]s are the kernel's binary64 floats
    ([PrimFloat]), so every arithmetic step below rounds exactly as the
    program's does (round-to-nearest-even, NaN and infinities included).
    C [int]s are integers in [Z]; the places where the program leaves the
    range of [int] or of an allocated block are faults of the error monad
    [result].  A [struct sound] is a record holding the allocated block of
    samples and the [nsamples] field. *)

From Stdlib Require Import ZArith Lia Bool List.
From Stdlib Require Import Floats Uint63.
From stdpp Require Import base option list gmap.

Set Warnings "-inexact-float".
Local Open Scope Z_scope.

(** ** Faults and the error monad *)

Inductive access := Read | Write.

Inductive fault :=
| OutOfBounds (a : access) (index : Z) (capacity : nat)
| BadCast
| IntOverflow
| AllocFailure
| NullPointer.

Inductive result (A : Type) :=
| Ok (a : A)
| Fault (f : fault).

Arguments Ok {A} a.
Arguments Fault {A} f.

#[global] Instance result_ret : MRet result := fun A a => Ok a.

#[global] Instance result_bind : MBind result := fun A B k m =>
  match m with
  | Ok a => k a
  | Fault f => Fault f
  end.

(** ** C scalars *)

Definition INT_MAX : Z := 2147483647.
Definition INT_MIN : Z := -2147483648.
Definition SAMPLERATE : Z := 44100.

Definition in_int_range (z : Z) : bool := (INT_MIN <=? z) && (z <=? INT_MAX).

(** [(double) i] for an [int] [i]. *)
Definition double_of_int (z : Z) : float :=
  if z <? 0 then PrimFloat.opp (of_uint63 (Uint63.of_Z (- z)))
  else of_uint63 (Uint63.of_Z z).

(** The integral part of a finite double, rounding toward zero. *)
Definition trunc_double (f : float) : option Z :=
  match Prim2SF f with
  | S754_zero _ => Some 0
  | S754_finite s m e => Some (cond_Zopp s (Z.shiftl (Zpos m) e))
  | S754_infinity _ | S754_nan => None
  end.

(** [(int) f]: undefined in C when the integral part is not an [int]. *)
Definition int_of_double (f : float) : result Z :=
  match trunc_double f with
  | Some z => if in_int_range z then Ok z else Fault BadCast
  | None => Fault BadCast
  end.

(** [a + b] on [int]s, undefined on overflow. *)
Definition int_add (a b : Z) : result Z :=
  if in_int_range (a + b) then Ok (a + b) else Fault IntOverflow.

(** C's [fabs], [<] and [>] on doubles. *)
Definition fabs (x : float) : float := PrimFloat.abs x.
Definition flt (x y : float) : bool := PrimFloat.ltb x y.
Definition fgt (x y : float) : bool := PrimFloat.ltb y x.

(** ** Sample blocks *)

(** [struct sound]: [data] is the allocated block (its length is the
    capacity), [nsamples] the number of samples in use. *)
Record sound := mkSound { data : list float; nsamples : Z }.

(** [d[i]] as an rvalue. *)
Definition load (d : list float) (i : Z) : result float :=
  if i <? 0 then Fault (OutOfBounds Read i (length d))
  else match d !! Z.to_nat i with
       | Some v => Ok v
       | None => Fault (OutOfBounds Read i (length d))
       end.

(** [d[i] = v]. *)
Definition store (d : list float) (i : Z) (v : float) : result (list float) :=
  if (0 <=? i) && (i <? Z.of_nat (length d)) then Ok (<[Z.to_nat i := v]> d)
  else Fault (OutOfBounds Write i (length d)).

(** [malloc(sizeof(double) * n)]: the cells are uninitialised in C; every
    function below writes a cell of a fresh block before it reads it, so the
    placeholder content is never observed. *)
Definition malloc_doubles (n : Z) : result (list float) :=
  if n <? 0 then Fault AllocFailure else Ok (replicate (Z.to_nat n) 0%float).

(** [alloc_sound]: a zero-filled block of [n] cells, [nsamples = 0]. *)
Definition alloc_sound (n : Z) : result sound :=
  d ← malloc_doubles n; Ok (mkSound d 0).

(** The samples in use lie inside the allocated block. *)
Definition well_formed (s : sound) : Prop :=
  0 <= nsamples s <= Z.of_nat (length (data s)).

(** ** Loops *)

(** [for (i = start; ...; i++)] running [count] times. *)
Fixpoint for_up {St : Type} (count : nat) (i : Z)
    (body : Z -> St -> result St) (st : St) : result St :=
  match count with
  | O => Ok st
  | S c => st' ← body i st; for_up c (i + 1) body st'
  end.

(** [for (i = start; ...; i--)] running [count] times. *)
Fixpoint for_down {St : Type} (count : nat) (i : Z)
    (body : Z -> St -> result St) (st : St) : result St :=
  match count with
  | O => Ok st
  | S c => st' ← body i st; for_down c (i - 1) body st'
  end.

(** [for (i = a; i < b; i++)] *)
Definition for_range {St : Type} (a b : Z) (body : Z -> St -> result St) (st : St)
  : result St := for_up (Z.to_nat (b - a)) a body st.

(** [for (i = a; i >= 0; i--)] *)
Definition for_countdown {St : Type} (a : Z) (body : Z -> St -> result St) (st : St)
  : result St := for_down (Z.to_nat (a + 1)) a body st.

(** ** Buffer operations *)

(** [renormalize] *)
Definition abs_max_step (d : list float) (i : Z) (max : float) : result float :=
  x ← load d i;
  Ok (if fgt (fabs x) max then fabs x else max).

Definition renormalize (s : sound) : result sound :=
  max ← for_range 0 (nsamples s) (abs_max_step (data s)) 0%float;
  d ← for_range 0 (nsamples s)
        (fun i d => x ← load d i; store d i (x / (1.001 * max))%float)
        (data s);
  Ok (mkSound d (nsamples s)).

(** [add_sound]: a fresh sound holding the sum of [s1] and [s2]. *)
Definition add_sound_step (s1 s2 : sound) (i : Z) (s : sound) : result sound :=
  d ← store (data s) i 0%float;
  d ← (if i <? nsamples s1
       then x ← load d i; y ← load (data s1) i; store d i (x + y)%float
       else Ok d);
  d ← (if i <? nsamples s2
       then x ← load d i; y ← load (data s2) i; store d i (x + y)%float
       else Ok d);
  Ok (mkSound d (nsamples s + 1)).

Definition add_sound (s1 s2 : sound) : result sound :=
  let n := nsamples s1 in
  let n := if n <? nsamples s2 then nsamples s2 else n in
  d ← malloc_doubles n;
  for_range 0 n (add_sound_step s1 s2) (mkSound d 0).

(** [free_sound]: the block is released and the fields reset. *)
Definition free_sound (s : sound) : sound := mkSound [] 0.

(** [fadeout] *)
Definition fade_factor (i nsamples : Z) : float :=
  (1.0 - (double_of_int i / double_of_int nsamples))%float.

Definition fadeout (s : sound) (nsamples' : Z) : result sound :=
  d ← for_range 0 nsamples'
        (fun i d => x ← load d i; store d i (x * fade_factor i nsamples')%float)
        (data s);
  Ok (mkSound d (nsamples s)).

(** [k] successive calls [fadeout(s, n)], as the loop
    [for (j = 0; j < iters; j++) fadeout(t, t->nsamples)] makes them. *)
Definition fadeout_repeated (k : nat) (s : sound) (n : Z) : result sound :=
  for_up k 0 (fun _ t => fadeout t n) s.

(** A sample multiplied [k] times in succession by the same factor. *)
Definition compound (k : nat) (factor x : float) : float :=
  Nat.iter k (fun y => (y * factor)%float) x.

(** [sliding_low_pass] *)
Definition sweep_alpha (i n : Z) (alpha1 alpha2 : float) : float :=
  let alpha :=
    ((double_of_int i / double_of_int n) * (alpha2 - alpha1) + alpha1)%float in
  (alpha * alpha)%float.

Definition low_pass_step (s : sound) (alpha1 alpha2 : float) (i : Z)
    (od : list float) : result (list float) :=
  let alpha := sweep_alpha i (nsamples s) alpha1 alpha2 in
  prev ← load od (i - 1);
  x ← load (data s) i;
  store od i (prev + alpha * (x - prev))%float.

Definition sliding_low_pass (s : sound) (alpha1 alpha2 : float) : result sound :=
  od ← malloc_doubles (nsamples s);
  x0 ← load (data s) 0;
  od ← store od 0 x0;
  od ← for_range 1 (nsamples s) (low_pass_step s alpha1 alpha2) od;
  Ok (mkSound od (nsamples s)).

Definition sliding_low_pass_inplace (s : sound) (alpha1 alpha2 : float)
  : result sound :=
  o ← sliding_low_pass s alpha1 alpha2;
  let s := free_sound s in
  Ok (mkSound (data o) (nsamples o)).

(** [interpolate] *)
Definition interp_threshold : float :=
  (0.01 * 1.0 / double_of_int SAMPLERATE)%float.

Definition interp_degenerate (x1 x2 : float) : bool :=
  flt (fabs (x2 - x1)) interp_threshold.

Definition interpolate (x x1 y1 x2 y2 : float) : float :=
  if interp_degenerate x1 x2 then ((y1 + y2) / 2.0)%float
  else ((x - x1) * (y2 - y1) / (x2 - x1) + y1)%float.

(** [change_speed].  [interp_args] is the evaluation of the five arguments
    of the call to [interpolate] in iteration [i]. *)
Record interp_call := mkCall
  { arg_x : float; arg_x1 : float; arg_y1 : float;
    arg_x2 : float; arg_y2 : float;
    call_sp1 : Z; call_sp2 : Z }.

Definition sample_point (i nsamples' old_nsamples : Z) : float :=
  (double_of_int i / double_of_int nsamples' * double_of_int old_nsamples)%float.

(** [sp1] and [sp2] of iteration [i]. *)
Definition sample_indices (s : sound) (nsamples' i : Z) : result (Z * Z) :=
  sp1 ← int_of_double (sample_point i nsamples' (nsamples s));
  sp2 ← int_add sp1 1;
  Ok (sp1, sp2).

Definition interp_args (s : sound) (nsamples' i : Z) : result interp_call :=
  let sample_point := sample_point i nsamples' (nsamples s) in
  '(sp1, sp2) ← sample_indices s nsamples' i;
  y1 ← load (data s) sp1;
  y2 ← load (data s) sp2;
  Ok (mkCall sample_point (double_of_int sp1) y1 (double_of_int sp2) y2 sp1 sp2).

Definition call_interpolate (c : interp_call) : float :=
  interpolate (arg_x c) (arg_x1 c) (arg_y1 c) (arg_x2 c) (arg_y2 c).

Definition change_speed_step (s : sound) (nsamples' : Z) (i : Z) (o : sound)
  : result sound :=
  c ← interp_args s nsamples' i;
  d ← store (data o) i (call_interpolate c);
  Ok (mkSound d (nsamples o + 1)).

Definition change_speed (s : sound) (factor : float) : result sound :=
  nsamples' ← int_of_double (double_of_int (nsamples s) / factor)%float;
  o ← alloc_sound nsamples';
  x0 ← load (data s) 0;
  d ← store (data o) 0 x0;
  for_range 1 nsamples' (change_speed_step s nsamples') (mkSound d 1).

(** Whether, for a source of [n] samples, the last iteration of the loop of
    [change_speed] has [sp2 = n]. *)
Definition last_read_past_end (n : Z) (factor : float) : bool :=
  match int_of_double (double_of_int n / factor)%float with
  | Ok nsamples' =>
      match sample_indices (mkSound [] n) nsamples' (nsamples' - 1) with
      | Ok (sp1, sp2) => (1 <? nsamples') && (sp2 =? n)
      | Fault _ => false
      end
  | Fault _ => false
  end.

Definition change_speed_inplace (s : sound) (factor : float) : result sound :=
  o ← change_speed s factor;
  let s := free_sound s in
  Ok (mkSound (data o) (nsamples o)).

(** [copy_sound] *)
Definition copy_sound (s : sound) : result sound :=
  o ← alloc_sound (nsamples s);
  if nsamples s <=? Z.of_nat (length (data s))
  then Ok (mkSound (take (Z.to_nat (nsamples s)) (data s)) (nsamples s))
  else Fault (OutOfBounds Read (Z.of_nat (length (data s))) (length (data s))).

(** [amplify_in_place] *)
Definition clamp_unit (x : float) : float :=
  let x := if fgt x 1.0 then 1.0%float else x in
  if flt x (-1.0) then (-1.0)%float else x.

Definition amplify_in_place (s : sound) (gain : float) : result sound :=
  d ← for_range 0 (nsamples s)
        (fun i d => x ← load d i; store d i (clamp_unit (x * gain)))
        (data s);
  Ok (mkSound d (nsamples s)).

(** [delay_effect_in_place] *)
Definition delay_step (n delay_samples : Z) (i : Z) (d : list float)
  : result (list float) :=
  let source := i - delay_samples in
  if source <? n then
    if 0 <? source then x ← load d source; store d i x
    else store d i 0%float
  else Ok d.

Definition delay_effect_in_place (s : sound) (delay_samples : Z) : result sound :=
  d ← for_countdown (nsamples s - 1) (delay_step (nsamples s) delay_samples)
        (data s);
  Ok (mkSound d (nsamples s)).

(** [trim_trailing_silence] *)
Definition silence_threshold : float := 0.00001%float.

Definition is_silent (x : float) : bool := flt (fabs x) silence_threshold.

Definition trim_step (i : Z) (s : sound) : result sound :=
  x ← load (data s) i;
  Ok (if is_silent x then mkSound (data s) (nsamples s - 1) else s).

Definition trim_trailing_silence (s : sound) : result sound :=
  for_countdown (nsamples s - 1) trim_step s.

(** The number of silent samples of a list. *)
Fixpoint count_silent (l : list float) : Z :=
  match l with
  | [] => 0
  | x :: l => (if is_silent x then 1 else 0) + count_silent l
  end.

(** ** Sounds behind pointers

    The in-place functions take [struct sound *] arguments; where two of
    them are involved the store of sounds is explicit. *)
Abbreviation heap := (gmap positive sound).

Definition deref (h : heap) (p : positive) : result sound :=
  match h !! p with
  | Some s => Ok s
  | None => Fault NullPointer
  end.

(** [accumulate_sound]: [*acc] is freed and takes over the block and the
    length of the sum; [*inc] is only read. *)
Definition accumulate_sound (acc inc : positive) (h : heap) : result heap :=
  a ← deref h acc;
  i ← deref h inc;
  t ← add_sound a i;
  let h := <[acc := free_sound a]> h in
  Ok (<[acc := mkSound (data t) (nsamples t)]> h).

(** The spec's [mix]: the elementwise sum over [max (len a) (len b)]
    samples, a sample missing from the shorter buffer counting as zero.  The
    sum of the two samples is accumulated from 0.0. *)
Definition sample_or_zero (s : sound) (k : nat) : float :=
  if Z.of_nat k <? nsamples s then default 0%float (data s !! k) else 0%float.

Definition mix_sample (a b : sound) (k : nat) : float :=
  (0 + sample_or_zero a k + sample_or_zero b k)%float.

Definition mix_spec (a b : sound) : sound :=
  let n := Z.max (nsamples a) (nsamples b) in
  mkSound (mix_sample a b <$> seq 0 (Z.to_nat n)) n.

(** ** Noise and layers *)

(** The C library's generator: the sequence of values [rand()] returns and
    the number of calls made so far. *)
Record rng := mkRng { rand_values : nat -> Z; rand_calls : nat }.

Definition RAND_MAX : Z := 2147483647.

Definition rand (g : rng) : Z * rng :=
  (rand_values g (rand_calls g), mkRng (rand_values g) (S (rand_calls g))).

Definition drand (g : rng) : float * rng :=
  let '(r, g) := rand g in
  ((double_of_int r / double_of_int RAND_MAX)%float, g).

Definition seconds_to_frames (seconds : float) : result Z :=
  int_of_double (seconds * double_of_int SAMPLERATE)%float.

Definition make_noise (n : Z) (g : rng) : result (sound * rng) :=
  s ← alloc_sound n;
  for_range 0 n
    (fun i '(s, g) =>
       let '(r, g) := drand g in
       d ← store (data s) i (2.0 * r - 1.0)%float;
       Ok (mkSound d (nsamples s + 1), g))
    (s, g).

(** The two pass counts of a layer, as [make_explosion] computes [iters]. *)
Definition fade_iters (i : Z) : Z :=
  let iters := i + 1 in
  if 3 <? iters then 3 else iters.

Definition low_pass_iters (i : Z) : Z :=
  let iters := 3 - i in
  if iters <? 0 then 1 else iters.

Definition fade_pass (j : Z) (t : sound) : result sound :=
  fadeout t (nsamples t).

Definition low_pass_pass (a1 a2 : float) (j : Z) (t : sound) : result sound :=
  t ← sliding_low_pass_inplace t a1 a2;
  renormalize t.

(** The body of the first loop of [make_explosion]: layer [i]. *)
Definition make_layer (seconds : float) (nlayers i : Z) (g : rng)
  : result (sound * rng) :=
  frames ← seconds_to_frames seconds;
  '(t, g) ← make_noise frames g;
  t ← (if 0 <? i then change_speed_inplace t (double_of_int (i * 2)) else Ok t);
  t ← for_range 0 (fade_iters i) fade_pass t;
  let a1 := (double_of_int (i + 1) / double_of_int nlayers)%float in
  let a2 := (double_of_int i / double_of_int nlayers)%float in
  t ← for_range 0 (low_pass_iters i) (low_pass_pass a1 a2) t;
  Ok (t, g).

(** [make_explosion]: the local array [s] has ten slots. *)
Definition layer_slots : nat := 10.

Definition make_explosion (seconds : float) (nlayers : Z) (g : rng)
  : result (sound * rng) :=
  '(s, g) ← for_range 0 nlayers
    (fun i '(s, g) =>
       '(t, g) ← make_layer seconds nlayers i g;
       if i <? Z.of_nat layer_slots then Ok (s ++ [t], g)
       else Fault (OutOfBounds Write i layer_slots))
    ([], g);
  s0 ← (match s !! 0%nat with Some s0 => Ok s0 | None => Fault NullPointer end);
  s0 ← for_range 1 nlayers
    (fun i s0 =>
       si ← (match s !! Z.to_nat i with Some si => Ok si | None => Fault NullPointer end);
       t ← add_sound s0 si;
       Ok (mkSound (data t) (nsamples t)))
    s0;
  s0 ← renormalize s0;
  Ok (s0, g).

(** ** Random integers, the reverb and the whole run *)

(** [a * b] on [int]s, undefined on overflow. *)
Definition int_mul (a b : Z) : result Z :=
  if in_int_range (a * b) then Ok (a * b) else Fault IntOverflow.

(** [irand]: [(n * (rand() & 0x0ffffff)) / 0x0ffffff]. *)
Definition irand (n : Z) (g : rng) : result (Z * rng) :=
  let '(r, g) := rand g in
  p ← int_mul n (Z.land r 16777215);
  Ok (Z.quot p 16777215, g).

(** The delays of the reflections:
    [(3 * 4410 * (rand() & 0x0ffff)) / 0x0ffff] and
    [(2 * 44100 * (rand() & 0x0ffff)) / 0x0ffff]. *)
Definition early_delay (r : Z) : result Z :=
  p ← int_mul (3 * 4410) (Z.land r 65535);
  Ok (Z.quot p 65535).

Definition late_delay (r : Z) : result Z :=
  p ← int_mul (2 * 44100) (Z.land r 65535);
  Ok (Z.quot p 65535).

(** [accumulate_sound] on the sounds themselves. *)
Definition accumulated (acc inc : sound) : result sound :=
  t ← add_sound acc inc;
  let acc := free_sound acc in
  Ok (mkSound (data t) (nsamples t)).

(** One reflection of [poor_mans_reverb]: the body of either loop, with the
    two filter coefficients, the span of the random gain and the delay of
    that loop. *)
Definition reflection (alpha1 alpha2 gain_span : float)
    (delay_of : Z -> result Z) (i : Z) (st : sound * sound * rng)
  : result (sound * sound * rng) :=
  let '(withverb, echo, g) := st in
  echo2 ← sliding_low_pass echo alpha1 alpha2;
  let '(r, g) := drand g in
  let gain := (r * gain_span + 0.03)%float in
  echo ← amplify_in_place echo gain;
  let '(r, g) := rand g in
  delay ← delay_of r;
  echo2 ← delay_effect_in_place echo2 delay;
  withverb ← accumulated withverb echo2;
  Ok (withverb, echo, g).

Definition poor_mans_reverb (s : sound) (early_refls late_refls : Z) (g : rng)
  : result (sound * rng) :=
  n2 ← int_mul (nsamples s) 2;
  withverb ← alloc_sound n2;
  d ← for_range 0 (nsamples s)
        (fun i d => x ← load (data s) i; store d i x)
        (data withverb);
  let withverb := mkSound d n2 in
  echo ← copy_sound withverb;
  '(withverb, echo, g) ← for_range 0 early_refls
     (reflection 0.5 0.5 0.03 early_delay) (withverb, echo, g);
  '(withverb, echo, g) ← for_range 0 late_refls
     (reflection 0.5 0.2 0.01 late_delay) (withverb, echo, g);
  Ok (withverb, g).

(** [struct explosion_def] and the settings [e] the program starts with. *)
Record explosion_def := mkExplosionDef
  { duration : float;
    nlayers : Z;
    preexplosions : Z;
    preexplosion_delay : float;
    preexplosion_low_pass_factor : float;
    final_speed_factor : float;
    reverb_early_refls : Z;
    reverb_late_refls : Z }.

Definition default_explosion_def : explosion_def :=
  mkExplosionDef 4.0 4 1 0.2 0.5 0.25 10 50.




(** * Properties *)

(** ** The error monad and the loops *)

(** One step of the error monad in the goal. *)
Ltac run_bind := cbn [mbind result_bind mret result_ret].

Lemma bind_ok {A B} (m : result A) (k : A -> result B) (b : B) :
  (m ≫= k) = Ok b -> exists a, m = Ok a /\ k a = Ok b.
Proof. destruct m as [a|f]; simpl; [eauto | discriminate]. Qed.

Lemma for_up_inv {St : Type} (P : Z -> St -> Prop) (body : Z -> St -> result St) :
  forall (n : nat) (i : Z) (st : St),
    P i st ->
    (forall j st, i <= j < i + Z.of_nat n -> P j st ->
                  exists st', body j st = Ok st' /\ P (j + 1) st') ->
    exists st', for_up n i body st = Ok st' /\ P (i + Z.of_nat n) st'.
Proof.
  induction n as [|n IH]; intros i st HP Hbody.
  - exists st. split; [reflexivity|]. now replace (i + Z.of_nat 0) with i by lia.
  - destruct (Hbody i st ltac:(lia) HP) as (st1 & Hb & HP1).
    destruct (IH (i + 1) st1 HP1) as (st2 & Hl & HP2).
    + intros j st' Hj. apply Hbody. lia.
    + exists st2. split.
      * simpl. rewrite Hb. exact Hl.
      * now replace (i + Z.of_nat (S n)) with (i + 1 + Z.of_nat n) by lia.
Qed.

Lemma for_down_inv {St : Type} (P : Z -> St -> Prop) (body : Z -> St -> result St) :
  forall (n : nat) (i : Z) (st : St),
    P i st ->
    (forall j st, i - Z.of_nat n < j <= i -> P j st ->
                  exists st', body j st = Ok st' /\ P (j - 1) st') ->
    exists st', for_down n i body st = Ok st' /\ P (i - Z.of_nat n) st'.
Proof.
  induction n as [|n IH]; intros i st HP Hbody.
  - exists st. split; [reflexivity|]. now replace (i - Z.of_nat 0) with i by lia.
  - destruct (Hbody i st ltac:(lia) HP) as (st1 & Hb & HP1).
    destruct (IH (i - 1) st1 HP1) as (st2 & Hl & HP2).
    + intros j st' Hj. apply Hbody. lia.
    + exists st2. split.
      * simpl. rewrite Hb. exact Hl.
      * now replace (i - Z.of_nat (S n)) with (i - 1 - Z.of_nat n) by lia.
Qed.

Lemma for_range_inv {St : Type} (P : Z -> St -> Prop) (body : Z -> St -> result St)
    (a b : Z) (st : St) :
  a <= b ->
  P a st ->
  (forall j st, a <= j < b -> P j st ->
                exists st', body j st = Ok st' /\ P (j + 1) st') ->
  exists st', for_range a b body st = Ok st' /\ P b st'.
Proof.
  intros Hab HP Hbody. unfold for_range.
  destruct (for_up_inv P body (Z.to_nat (b - a)) a st HP) as (st' & H1 & H2).
  - intros j st' Hj. apply Hbody. lia.
  - exists st'. split; [exact H1|].
    now replace (a + Z.of_nat (Z.to_nat (b - a))) with b in H2 by lia.
Qed.

Lemma for_countdown_inv {St : Type} (P : Z -> St -> Prop)
    (body : Z -> St -> result St) (a : Z) (st : St) :
  -1 <= a ->
  P a st ->
  (forall j st, 0 <= j <= a -> P j st ->
                exists st', body j st = Ok st' /\ P (j - 1) st') ->
  exists st', for_countdown a body st = Ok st' /\ P (-1) st'.
Proof.
  intros Ha HP Hbody. unfold for_countdown.
  destruct (for_down_inv P body (Z.to_nat (a + 1)) a st HP) as (st' & H1 & H2).
  - intros j st' Hj. apply Hbody. lia.
  - exists st'. split; [exact H1|].
    now replace (a - Z.of_nat (Z.to_nat (a + 1))) with (-1) in H2 by lia.
Qed.

(** ** Loads and stores *)

Lemma load_ok (d : list float) (i : Z) (x : float) :
  0 <= i -> d !! Z.to_nat i = Some x -> load d i = Ok x.
Proof.
  intros Hi Hx. unfold load.
  destruct (Z.ltb_spec i 0); [lia|]. now rewrite Hx.
Qed.

Lemma load_inv (d : list float) (i : Z) (x : float) :
  load d i = Ok x -> 0 <= i /\ d !! Z.to_nat i = Some x.
Proof.
  unfold load. destruct (Z.ltb_spec i 0); [discriminate|].
  destruct (d !! Z.to_nat i) eqn:E; [|discriminate].
  intros [= ->]. split; [lia|reflexivity].
Qed.

Lemma store_ok (d : list float) (i : Z) (v : float) :
  0 <= i < Z.of_nat (length d) -> store d i v = Ok (<[Z.to_nat i := v]> d).
Proof.
  intros Hi. unfold store.
  destruct (Z.leb_spec 0 i); [|lia].
  destruct (Z.ltb_spec i (Z.of_nat (length d))); [reflexivity|lia].
Qed.

Lemma lookup_in_range (d : list float) (k : nat) :
  (k < length d)%nat -> exists x, d !! k = Some x.
Proof. intros H. destruct (lookup_lt_is_Some_2 d k H) as [x Hx]. eauto. Qed.

(** The loops of the form [for (i = 0; i < n; i++) d[i] = f(i, d[i])]. *)
Lemma map_loop_spec (f : Z -> float -> float) (n : Z) (d : list float) :
  0 <= n <= Z.of_nat (length d) ->
  exists d',
    for_range 0 n (fun i d => x ← load d i; store d i (f i x)) d = Ok d' /\
    length d' = length d /\
    (forall (k : nat) x, (Z.of_nat k < n) -> d !! k = Some x ->
                         d' !! k = Some (f (Z.of_nat k) x)) /\
    (forall k : nat, n <= Z.of_nat k -> d' !! k = d !! k).
Proof.
  intros Hn.
  pose (P := fun (i : Z) (d' : list float) =>
    length d' = length d /\
    (forall (k : nat) x, (Z.of_nat k < i) -> d !! k = Some x ->
                         d' !! k = Some (f (Z.of_nat k) x)) /\
    (forall k : nat, i <= Z.of_nat k -> d' !! k = d !! k)).
  destruct (for_range_inv P (fun i d => x ← load d i; store d i (f i x)) 0 n d)
    as (d' & Hrun & HP); [lia | | | ].
  - split; [reflexivity|]. split; [intros; lia | reflexivity].
  - intros j dj Hj (Hlen & Hlo & Hhi).
    destruct (lookup_in_range d (Z.to_nat j) ltac:(lia)) as [x Hx].
    assert (Hxj : dj !! Z.to_nat j = Some x).
    { rewrite Hhi by lia. exact Hx. }
    exists (<[Z.to_nat j := f j x]> dj). split.
    + rewrite (load_ok dj j x) by (lia || assumption). simpl.
      apply store_ok. lia.
    + repeat split.
      * now rewrite length_insert.
      * intros k y Hk Hy.
        destruct (decide (k = Z.to_nat j)) as [->|Hne].
        -- rewrite list_lookup_insert_eq by lia.
           rewrite Hx in Hy. injection Hy as <-. now rewrite Z2Nat.id by lia.
        -- rewrite list_lookup_insert_ne by congruence. apply Hlo; [lia|exact Hy].
      * intros k Hk. rewrite list_lookup_insert_ne by lia. apply Hhi. lia.
  - exists d'. split; [exact Hrun|exact HP].
Qed.

(** ** [renormalize] on silent buffers *)

Lemma zero_not_nan : 0%float <> nan.
Proof.
  intros H. apply (f_equal PrimFloat.is_nan) in H. vm_compute in H. discriminate.
Qed.

Lemma abs_max_zeros (n : nat) :
  for_range 0 (Z.of_nat n) (abs_max_step (replicate n 0%float)) 0%float
  = Ok 0%float.
Proof.
  destruct (for_range_inv (fun _ m => m = 0%float)
              (abs_max_step (replicate n 0%float)) 0 (Z.of_nat n) 0%float)
    as (m & Hrun & ->); [lia | reflexivity | | exact Hrun].
  intros j m Hj ->. exists 0%float. split; [|reflexivity].
  unfold abs_max_step.
  rewrite (load_ok _ j 0%float); [reflexivity | lia |].
  apply lookup_replicate_2. lia.
Qed.

(** C1 (the code departs from the claim): on every non-empty all-zero
    buffer the maximum is 0 and [renormalize] still divides, each sample
    becoming 0/0 = NaN; the buffer is not left unchanged. *)
Theorem renormalize_zeros_gives_nan (n : nat) :
  let s := mkSound (replicate (S n) 0%float) (Z.of_nat (S n)) in
  renormalize s = Ok (mkSound (replicate (S n) nan) (Z.of_nat (S n))) /\
  renormalize s <> Ok s.
Proof.
  intros s.
  assert (Hres : renormalize s
                 = Ok (mkSound (replicate (S n) nan) (Z.of_nat (S n)))).
  { unfold renormalize, s. cbn [data nsamples].
    rewrite abs_max_zeros. run_bind.
    destruct (map_loop_spec (fun _ x => (x / (1.001 * 0))%float)
                (Z.of_nat (S n)) (replicate (S n) 0%float))
      as (d' & Hrun & Hlen & Hlo & Hhi).
    { rewrite length_replicate. lia. }
    rewrite Hrun. run_bind. do 2 f_equal.
    apply list_eq. intros k.
    destruct (decide (k < S n)%nat) as [Hk|Hk].
    - assert (H0 : replicate (S n) 0%float !! k = Some 0%float)
        by (apply lookup_replicate_2; lia).
      rewrite (Hlo k 0%float ltac:(lia) H0).
      symmetry. apply lookup_replicate_2. lia.
    - rewrite (Hhi k ltac:(lia)).
      rewrite (proj1 (lookup_replicate_None (S n) 0%float k)) by lia.
      symmetry. apply lookup_replicate_None. lia. }
  split; [exact Hres|].
  rewrite Hres. unfold s. intros H.
  apply (f_equal (fun r => match r with
                           | Ok o => hd 0%float (data o)
                           | Fault _ => 0%float
                           end)) in H.
  cbn in H. apply zero_not_nan. now symmetry.
Qed.

(** ** [trim_trailing_silence] *)

Lemma trim_length_spec (s : sound) :
  well_formed s ->
  trim_trailing_silence s
  = Ok (mkSound (data s)
          (nsamples s
           - count_silent (take (Z.to_nat (nsamples s)) (data s)))).
Proof.
  unfold well_formed. intros Hwf. unfold trim_trailing_silence.
  set (n := nsamples s) in *. set (l := take (Z.to_nat n) (data s)).
  assert (Hl : length l = Z.to_nat n) by (unfold l; rewrite length_take; lia).
  destruct (for_countdown_inv
              (fun j st => data st = data s /\
                           nsamples st
                           = n - count_silent (drop (Z.to_nat (j + 1)) l))
              trim_step (n - 1) s)
    as ([d' n'] & Hrun & Hd & Hn'); [lia | | | ].
  - split; [reflexivity|]. rewrite drop_ge by lia. cbn. lia.
  - intros j [d nj] Hj [Hd Hnj]. cbn [data nsamples] in *. subst d.
    destruct (lookup_in_range (data s) (Z.to_nat j)) as [x Hx]; [lia|].
    assert (Hlx : l !! Z.to_nat j = Some x)
      by (unfold l; rewrite lookup_take_lt by lia; exact Hx).
    eexists. split.
    + unfold trim_step. cbn [data nsamples].
      rewrite (load_ok (data s) j x) by (lia || exact Hx). reflexivity.
    + replace (Z.to_nat (j - 1 + 1)) with (Z.to_nat j) by lia.
      rewrite (drop_S l x (Z.to_nat j) Hlx).
      replace (S (Z.to_nat j)) with (Z.to_nat (j + 1)) by lia.
      cbn [count_silent].
      destruct (is_silent x); cbn [data nsamples]; split; try reflexivity; lia.
  - cbn [data nsamples] in *. rewrite Hrun, Hd, Hn'. reflexivity.
Qed.

(** C2 (the code departs from the claim): the loop has no exit at the first
    non-silent sample, so every silent sample of the buffer shortens it.
    Here the last sample is not silent, the trimmed length should stay 3,
    and the code returns length 1, dropping the non-silent sample. *)
Theorem trim_counts_interior_silence :
  let s := mkSound [0%float; 0%float; 1%float] 3 in
  is_silent 1%float = false /\
  trim_trailing_silence s = Ok (mkSound [0%float; 0%float; 1%float] 1).
Proof. split; vm_compute; reflexivity. Qed.

(** ** [delay_effect_in_place] *)

Lemma list_insert_same (d : list float) (k : nat) (x : float) :
  d !! k = Some x -> <[k := x]> d = d.
Proof. apply list_insert_id. Qed.

(** C3 (the code departs from the claim): with a delay of 0 the test
    [source > 0] sends sample 0 to the zero branch, so the first sample of
    every non-empty buffer is overwritten with 0.0 and the shift is not the
    identity. *)
Theorem delay_zero_clears_first_sample (x : float) (l : list float) :
  delay_effect_in_place (mkSound (x :: l) (Z.of_nat (S (length l)))) 0
  = Ok (mkSound (0%float :: l) (Z.of_nat (S (length l)))).
Proof.
  unfold delay_effect_in_place. cbn [data nsamples].
  set (n := Z.of_nat (S (length l))).
  destruct (for_countdown_inv
              (fun i d => (0 <= i -> d = x :: l) /\ (i = -1 -> d = 0%float :: l))
              (delay_step n 0) (n - 1) (x :: l))
    as (d' & Hrun & _ & Hd'); [lia | split; [reflexivity | lia] | | ].
  - intros j d Hj [Hd _]. specialize (Hd ltac:(lia)). subst d.
    unfold delay_step. replace (j - 0) with j by lia.
    destruct (Z.ltb_spec j n); [|lia].
    destruct (Z.ltb_spec 0 j).
    + destruct (lookup_in_range (x :: l) (Z.to_nat j)) as [y Hy].
      { cbn [length]. lia. }
      exists (x :: l). split.
      * rewrite (load_ok _ j y) by (lia || assumption). run_bind.
        rewrite store_ok by (cbn [length]; lia).
        now rewrite list_insert_same.
      * split; [reflexivity | lia].
    + assert (j = 0) as -> by lia.
      exists (0%float :: l). split; [reflexivity|].
      split; [lia | reflexivity].
  - rewrite Hrun, (Hd' eq_refl). reflexivity.
Qed.

(** The second half of the claim holds: a delay of the whole length clears
    the buffer. *)
Lemma delay_by_length_zeroes (d : list float) :
  delay_effect_in_place (mkSound d (Z.of_nat (length d))) (Z.of_nat (length d))
  = Ok (mkSound (replicate (length d) 0%float) (Z.of_nat (length d))).
Proof.
  unfold delay_effect_in_place. cbn [data nsamples].
  set (n := Z.of_nat (length d)).
  destruct (for_countdown_inv
              (fun i d' => length d' = length d /\
                           forall k : nat, i < Z.of_nat k < n ->
                                           d' !! k = Some 0%float)
              (delay_step n n) (n - 1) d)
    as (d' & Hrun & Hlen & Hz); [lia | split; [reflexivity | intros; lia] | | ].
  - intros j dj Hj [Hlen Hz]. unfold delay_step.
    destruct (Z.ltb_spec (j - n) n); [|lia].
    destruct (Z.ltb_spec 0 (j - n)); [lia|].
    exists (<[Z.to_nat j := 0%float]> dj). split; [apply store_ok; lia|].
    split; [now rewrite length_insert|].
    intros k Hk. destruct (decide (k = Z.to_nat j)) as [->|Hne].
    + apply list_lookup_insert_eq. lia.
    + rewrite list_lookup_insert_ne by congruence. apply Hz. lia.
  - rewrite Hrun. run_bind. do 2 f_equal.
    apply list_eq. intros k. destruct (decide (k < length d)%nat) as [Hk|Hk].
    + rewrite Hz by lia. symmetry. apply lookup_replicate_2. lia.
    + rewrite (lookup_ge_None_2 d') by lia.
      symmetry. apply lookup_replicate_None. lia.
Qed.

(** ** The low-pass passes of a layer *)

Lemma low_pass_iters_spec (i : Z) :
  0 <= i -> i <> 3 -> low_pass_iters i = Z.max (3 - i) 1.
Proof. unfold low_pass_iters. intros. destruct (Z.ltb_spec (3 - i) 0); lia. Qed.

Lemma fade_iters_spec (i : Z) : fade_iters i = Z.min (i + 1) 3.
Proof. unfold fade_iters. destruct (Z.ltb_spec 3 (i + 1)); lia. Qed.

(** C4 (the code departs from the claim): for layer 3 the count [3 - i] is
    0, which the guard [iters < 0] lets through, so the layer gets no
    low-pass-and-normalize pass at all where the claim promises
    [max (3 - 3) 1 = 1]; the layer is the faded, resampled noise. *)
Theorem layer_three_gets_no_low_pass (seconds : float) (nlayers : Z) (g : rng) :
  low_pass_iters 3 = 0 /\
  Z.max (3 - 3) 1 = 1 /\
  make_layer seconds nlayers 3 g =
    (frames ← seconds_to_frames seconds;
     '(t, g) ← make_noise frames g;
     t ← change_speed_inplace t (double_of_int 6);
     t ← for_range 0 3 fade_pass t;
     Ok (t, g)).
Proof.
  split; [reflexivity|]. split; [reflexivity|].
  unfold make_layer.
  destruct (seconds_to_frames seconds) as [frames|]; [|reflexivity].
  run_bind.
  destruct (make_noise frames g) as [[t g']|]; [|reflexivity].
  run_bind.
  change (0 <? 3) with true. cbv iota.
  change (3 * 2) with 6.
  destruct (change_speed_inplace t (double_of_int 6)) as [t1|]; [|reflexivity].
  run_bind.
  change (fade_iters 3) with 3.
  destruct (for_range 0 3 fade_pass t1) as [t2|]; reflexivity.
Qed.

(** ** [change_speed] at the end of its source *)

(** C5: slowing a two-sample buffer down by the factor 0.5 gives four
    output samples; for the last one [sp1 = 1] and [sp2 = 2], the old
    length, and the read of [s->data[sp2]] leaves the block. *)
Theorem change_speed_reads_past_end :
  exists (s : sound) (factor : float) (nsamples' : Z),
    flt factor 1.0 = true /\
    Z.of_nat (length (data s)) = nsamples s /\
    int_of_double (double_of_int (nsamples s) / factor)%float = Ok nsamples' /\
    sample_indices s nsamples' (nsamples' - 1)
      = Ok (nsamples s - 1, nsamples s) /\
    load (data s) (nsamples s)
      = Fault (OutOfBounds Read (nsamples s) (length (data s))) /\
    change_speed s factor
      = Fault (OutOfBounds Read (nsamples s) (length (data s))).
Proof.
  exists (mkSound [1%float; 2%float] 2), 0.5%float, 4.
  repeat split; vm_compute; reflexivity.
Qed.

(** The same happens at the default settings (4 seconds at 44100 Hz, final
    speed factor 0.25) and for every short buffer at the factors 0.25, 0.5
    and 1. *)
Lemma default_speed_change_reads_past_end :
  last_read_past_end (4 * SAMPLERATE) 0.25 = true.
Proof. vm_compute. reflexivity. Qed.

Lemma short_buffers_read_past_end :
  forallb (fun n => last_read_past_end (Z.of_nat n) 0.25
                    && last_read_past_end (Z.of_nat n) 0.5
                    && last_read_past_end (Z.of_nat (S n)) 1)
          (seq 1 300) = true.
Proof. vm_compute. reflexivity. Qed.

(** ** Zero-length buffers *)

Lemma int_of_double_zero_div (factor : float) :
  int_of_double (double_of_int 0 / factor)%float = Ok 0 \/
  int_of_double (double_of_int 0 / factor)%float = Fault BadCast.
Proof.
  unfold int_of_double, trunc_double.
  rewrite FloatAxioms.div_spec.
  change (Prim2SF (double_of_int 0)) with (S754_zero false).
  destruct (Prim2SF factor) as [s|s| |s m e]; cbn; auto.
Qed.

(** C6 (the code departs from the claim): on a buffer of length 0, whatever
    its block, [sliding_low_pass] and [change_speed] both start by copying
    sample 0 into a block of no cells; neither returns an empty result. *)
Theorem zero_length_buffer_faults (d : list float) (alpha1 alpha2 factor : float) :
  (exists a, sliding_low_pass (mkSound d 0) alpha1 alpha2
             = Fault (OutOfBounds a 0 0)) /\
  (change_speed (mkSound d 0) factor = Fault BadCast \/
   exists a, change_speed (mkSound d 0) factor = Fault (OutOfBounds a 0 0)).
Proof.
  split.
  - unfold sliding_low_pass. cbn [data nsamples].
    destruct d as [|x d]; [exists Read | exists Write]; reflexivity.
  - unfold change_speed. cbn [data nsamples].
    destruct (int_of_double_zero_div factor) as [-> | ->]; [|left; reflexivity].
    right. destruct d as [|x d]; [exists Read | exists Write]; reflexivity.
Qed.

(** ** [sliding_low_pass] *)

(** C7: on a buffer of [n >= 1] samples [sliding_low_pass] returns a buffer
    of [n] samples with [out[0] = in[0]] and, for [1 <= i < n],
    [out[i] = out[i-1] + a*a * (in[i] - out[i-1])] where
    [a = (i/n) * (alpha2 - alpha1) + alpha1], all in double arithmetic. *)
Theorem sliding_low_pass_recurrence (s : sound) (alpha1 alpha2 : float) :
  1 <= nsamples s <= Z.of_nat (length (data s)) ->
  exists o,
    sliding_low_pass s alpha1 alpha2 = Ok o /\
    nsamples o = nsamples s /\
    Z.of_nat (length (data o)) = nsamples s /\
    (exists x0, data s !! 0%nat = Some x0 /\ data o !! 0%nat = Some x0) /\
    forall i : nat, 1 <= Z.of_nat i < nsamples s ->
      exists prev x,
        data o !! (i - 1)%nat = Some prev /\
        data s !! i = Some x /\
        let a := (double_of_int (Z.of_nat i) / double_of_int (nsamples s)
                  * (alpha2 - alpha1) + alpha1)%float in
        data o !! i = Some (prev + a * a * (x - prev))%float.
Proof.
  intros Hn. set (n := nsamples s) in *.
  destruct (lookup_in_range (data s) 0) as [x0 Hx0]; [lia|].
  unfold sliding_low_pass. fold n.
  unfold malloc_doubles. destruct (Z.ltb_spec n 0); [lia|].
  run_bind.
  rewrite (load_ok _ 0 x0) by (lia || exact Hx0). run_bind.
  rewrite store_ok by (rewrite length_replicate; lia). run_bind.
  set (od0 := <[Z.to_nat 0 := x0]> (replicate (Z.to_nat n) 0%float)).
  pose (P := fun (i : Z) (od : list float) =>
    Z.of_nat (length od) = n /\
    od !! 0%nat = Some x0 /\
    forall k : nat, 1 <= Z.of_nat k < i ->
      exists prev x,
        od !! (k - 1)%nat = Some prev /\
        data s !! k = Some x /\
        od !! k = Some (prev + sweep_alpha (Z.of_nat k) n alpha1 alpha2
                               * (x - prev))%float).
  destruct (for_range_inv P (low_pass_step s alpha1 alpha2) 1 n od0)
    as (od & Hrun & Hlen & H0 & Hrec); [lia | | | ].
  - unfold P, od0. split; [rewrite length_insert, length_replicate; lia|].
    split; [|intros; lia].
    apply list_lookup_insert_eq. rewrite length_replicate. lia.
  - intros j od Hj (Hlen & H0 & Hrec).
    destruct (lookup_in_range od (Z.to_nat (j - 1))) as [prev Hprev]; [lia|].
    destruct (lookup_in_range (data s) (Z.to_nat j)) as [x Hx]; [lia|].
    eexists. split.
    + unfold low_pass_step. fold n.
      rewrite (load_ok _ (j - 1) prev) by (lia || exact Hprev).
      run_bind.
      rewrite (load_ok _ j x) by (lia || exact Hx).
      run_bind.
      apply store_ok. lia.
    + split; [rewrite length_insert; exact Hlen|].
      split; [rewrite list_lookup_insert_ne by lia; exact H0|].
      intros k Hk. destruct (decide (k = Z.to_nat j)) as [->|Hne].
      * exists prev, x.
        replace (Z.to_nat j - 1)%nat with (Z.to_nat (j - 1)) by lia.
        rewrite list_lookup_insert_ne by lia.
        rewrite list_lookup_insert_eq by lia.
        rewrite Z2Nat.id by lia. auto.
      * destruct (Hrec k ltac:(lia)) as (p & y & Hp & Hy & Hk').
        exists p, y. rewrite !list_lookup_insert_ne by lia. auto.
  - exists (mkSound od n). cbn [data nsamples].
    split; [now rewrite Hrun|]. split; [reflexivity|]. split; [exact Hlen|].
    split; [exists x0; auto|].
    intros i Hi. destruct (Hrec i Hi) as (p & y & Hp & Hy & Hk).
    exists p, y. auto.
Qed.

Lemma sliding_low_pass_recurrence_witness :
  let s := mkSound [1%float; 2%float; 3%float] 3 in
  1 <= nsamples s <= Z.of_nat (length (data s)) /\
  exists o, sliding_low_pass s 0.5%float 0.2%float = Ok o /\ nsamples o = 3.
Proof.
  intros s.
  assert (H : 1 <= nsamples s <= Z.of_nat (length (data s)))
    by (vm_compute; split; discriminate).
  split; [exact H|].
  destruct (sliding_low_pass_recurrence s 0.5%float 0.2%float H)
    as (o & Ho & Hn & _).
  exists o. split; [exact Ho | exact Hn].
Defined.

(** ** Double arithmetic on integers

    Integers below 2^53 convert to doubles without rounding; the facts
    below follow the specification of binary64 in [SpecFloat]. *)

Lemma digits2_log2 (p : positive) :
  Zpos (digits2_pos p) = Z.log2 (Zpos p) + 1.
Proof.
  assert (H : forall q, digits2_pos q = Pos.size q)
    by (induction q; simpl; congruence).
  rewrite H. destruct p; simpl; lia.
Qed.

Lemma iter_xO_val (p q : positive) :
  Zpos (Pos.iter xO p q) = Zpos p * 2 ^ Zpos q.
Proof.
  change (Pos.iter xO p q) with (shift_pos q p).
  rewrite shift_pos_correct, Z.pow_pos_fold. lia.
Qed.

Lemma shl_align_val (m : positive) (e ez : Z) :
  ez <= e ->
  exists m', shl_align m e ez = (m', ez) /\ Zpos m' = Zpos m * 2 ^ (e - ez).
Proof.
  intros H. unfold shl_align.
  destruct (ez - e) as [|d|d] eqn:E; try lia.
  - exists m. assert (e = ez) as -> by lia. rewrite Z.sub_diag. split; [reflexivity|lia].
  - exists (Pos.iter xO m d). split; [reflexivity|].
    rewrite iter_xO_val. f_equal. f_equal. lia.
Qed.

Lemma binary_round_aux_canonical (sx : bool) (m : positive) (e : Z) :
  Z.log2 (Zpos m) = 52 -> -1074 <= e <= 971 ->
  binary_round_aux prec emax sx (Zpos m) e loc_Exact = S754_finite sx m e.
Proof.
  intros Hm He.
  assert (Hs : shr_fexp prec emax (Zpos m) e loc_Exact
               = (Build_shr_record (Zpos m) false false, e)).
  { unfold shr_fexp, Zdigits2. rewrite digits2_log2, Hm.
    unfold fexp, emin, prec, emax.
    replace (Z.max (52 + 1 + e - 53) (3 - 1024 - 53) - e) with 0 by lia.
    reflexivity. }
  unfold binary_round_aux. rewrite Hs. cbn [shr_m loc_of_shr_record round_nearest_even].
  rewrite Hs. cbn [shr_m].
  unfold emax, prec. destruct (Z.leb_spec e (1024 - 53)); [reflexivity|lia].
Qed.

Lemma binary_round_exact (sx : bool) (p : positive) (e : Z) :
  let d := Z.log2 (Zpos p) + 1 in
  d <= 53 -> -1074 <= e + d - 53 -> e + d <= 1024 ->
  exists m, binary_round prec emax sx p e = S754_finite sx m (e + d - 53) /\
            Zpos m = Zpos p * 2 ^ (53 - d).
Proof.
  intros d Hd Hlo Hhi. unfold binary_round.
  rewrite digits2_log2. fold d.
  assert (Hf : fexp prec emax (d + e) = e + d - 53)
    by (unfold fexp, emin, prec, emax; lia).
  rewrite Hf.
  destruct (shl_align_val p e (e + d - 53) ltac:(lia)) as (m & -> & Hm).
  replace (e - (e + d - 53)) with (53 - d) in Hm by lia.
  exists m. split; [|exact Hm].
  apply binary_round_aux_canonical; [|lia].
  rewrite Hm. rewrite Z.log2_mul_pow2 by lia. unfold d. lia.
Qed.

Lemma double_of_int_exact (z : Z) :
  0 < z < 2 ^ 53 ->
  exists m, Prim2SF (double_of_int z) = S754_finite false m (Z.log2 z - 52) /\
            Zpos m = z * 2 ^ (52 - Z.log2 z).
Proof.
  intros Hz. unfold double_of_int.
  destruct (Z.ltb_spec z 0); [lia|].
  rewrite of_uint63_spec, of_Z_spec.
  assert (Hpow : 2 ^ 53 = 9007199254740992) by reflexivity.
  assert (HwB : wB = 9223372036854775808) by reflexivity.
  rewrite Z.mod_small by lia. clear HwB.
  destruct z as [|p|p]; try lia.
  cbn [binary_normalize].
  assert (Hl : Z.log2 (Zpos p) < 53) by (apply Z.log2_lt_pow2; lia).
  assert (Hl0 : 0 <= Z.log2 (Zpos p)) by apply Z.log2_nonneg.
  destruct (binary_round_exact false p 0) as (m & Hr & Hm); try lia.
  exists m. rewrite Hr. split; [f_equal; lia|].
  rewrite Hm. f_equal. f_equal. lia.
Qed.

Lemma Prim2SF_one : Prim2SF 1%float = S754_finite false 4503599627370496 (-52).
Proof. reflexivity. Qed.

Lemma double_succ_sub (z : Z) :
  0 <= z -> z + 1 < 2 ^ 53 ->
  (double_of_int (z + 1) - double_of_int z)%float = 1%float.
Proof.
  intros Hz Hz1.
  destruct (Z.eq_dec z 0) as [->|Hnz]; [reflexivity|].
  apply Prim2SF_inj. rewrite FloatAxioms.sub_spec, Prim2SF_one.
  destruct (double_of_int_exact (z + 1) ltac:(lia)) as (m1 & -> & Hm1).
  destruct (double_of_int_exact z ltac:(lia)) as (m2 & -> & Hm2).
  assert (Hl2 : 0 <= Z.log2 z) by apply Z.log2_nonneg.
  assert (Hl12 : Z.log2 z <= Z.log2 (z + 1)) by (apply Z.log2_le_mono; lia).
  assert (Hl1 : Z.log2 (z + 1) < 53) by (apply Z.log2_lt_pow2; lia).
  set (l1 := Z.log2 (z + 1)) in *. set (l2 := Z.log2 z) in *.
  unfold SF64sub, SFsub.
  rewrite Z.min_r by lia.
  destruct (shl_align_val m1 (l1 - 52) (l2 - 52) ltac:(lia)) as (a1 & -> & Ha1).
  destruct (shl_align_val m2 (l2 - 52) (l2 - 52) ltac:(lia)) as (a2 & -> & Ha2).
  cbn [fst cond_Zopp].
  assert (Hdiff : Zpos a1 - Zpos a2 = 2 ^ (52 - l2)).
  { rewrite Ha1, Ha2, Hm1, Hm2.
    replace (l2 - 52 - (l2 - 52)) with 0 by lia.
    replace (l1 - 52 - (l2 - 52)) with (l1 - l2) by lia.
    rewrite <- Z.mul_assoc, <- Z.pow_add_r by lia.
    replace (52 - l1 + (l1 - l2)) with (52 - l2) by lia.
    rewrite Z.pow_0_r. lia. }
  rewrite Hdiff.
  assert (Hpos : 0 < 2 ^ (52 - l2)) by (apply Z.pow_pos_nonneg; lia).
  destruct (2 ^ (52 - l2)) as [|q|q] eqn:Eq; try lia.
  cbn [binary_normalize].
  assert (Hlq : Z.log2 (Zpos q) = 52 - l2)
    by (rewrite <- Eq; apply Z.log2_pow2; lia).
  destruct (binary_round_exact false q (l2 - 52)) as (m & -> & Hm);
    try (rewrite Hlq; lia).
  rewrite Hlq in *.
  assert (Hm52 : Zpos m = 2 ^ 52).
  { rewrite Hm, <- Eq, <- Z.pow_add_r by lia. f_equal. lia. }
  f_equal; [|lia].
  apply Pos2Z.inj. rewrite Hm52. reflexivity.
Qed.

Lemma zero_div_double_of_int (z : Z) :
  0 < z < 2 ^ 53 -> (double_of_int 0 / double_of_int z)%float = 0%float.
Proof.
  intros Hz. apply Prim2SF_inj. rewrite FloatAxioms.div_spec.
  destruct (double_of_int_exact z Hz) as (m & -> & _).
  reflexivity.
Qed.

Lemma fade_factor_zero (n : Z) :
  0 < n < 2 ^ 53 -> fade_factor 0 n = 1%float.
Proof.
  intros Hn. unfold fade_factor.
  rewrite zero_div_double_of_int by exact Hn. reflexivity.
Qed.

(** Adding 0.0 to a sum that started from 0.0 changes nothing. *)
Lemma add_zero_after_zero (x : float) : (0 + x + 0)%float = (0 + x)%float.
Proof.
  apply Prim2SF_inj. rewrite !FloatAxioms.add_spec.
  change (Prim2SF 0) with (S754_zero false).
  destruct (Prim2SF x) as [[|]|[|]| |sx m e]; reflexivity.
Qed.

(** ** The calls to [interpolate] *)

Lemma int_of_double_range (f : float) (z : Z) :
  int_of_double f = Ok z -> INT_MIN <= z <= INT_MAX.
Proof.
  unfold int_of_double, in_int_range.
  destruct (trunc_double f) as [z'|]; [|discriminate].
  destruct (Z.leb_spec INT_MIN z'); [|discriminate].
  destruct (Z.leb_spec z' INT_MAX); [|discriminate].
  intros [= <-]. lia.
Qed.

Lemma sample_indices_inv (s : sound) (nsamples' i sp1 sp2 : Z) :
  sample_indices s nsamples' i = Ok (sp1, sp2) ->
  INT_MIN <= sp1 /\ sp2 = sp1 + 1 /\ sp2 <= INT_MAX.
Proof.
  unfold sample_indices. intros H.
  apply bind_ok in H as (z1 & Hz1 & H).
  apply bind_ok in H as (z2 & Hz2 & H).
  injection H as <- <-.
  apply int_of_double_range in Hz1.
  unfold int_add, in_int_range in Hz2.
  destruct (Z.leb_spec INT_MIN (z1 + 1)); [|discriminate].
  destruct (Z.leb_spec (z1 + 1) INT_MAX); [|discriminate].
  injection Hz2 as <-. lia.
Qed.

(** C10: in every call [change_speed] makes to [interpolate] the two
    x-coordinates are the doubles of [sp1] and [sp1 + 1]; their difference
    is exactly 1.0, the degenerate test fails, and the value returned is the
    quotient branch with denominator 1.0. *)
Theorem interpolate_call_unit_span
    (s : sound) (nsamples' i : Z) (c : interp_call) :
  interp_args s nsamples' i = Ok c ->
  call_sp2 c = call_sp1 c + 1 /\
  arg_x1 c = double_of_int (call_sp1 c) /\
  arg_x2 c = double_of_int (call_sp2 c) /\
  (arg_x2 c - arg_x1 c)%float = 1%float /\
  interp_degenerate (arg_x1 c) (arg_x2 c) = false /\
  call_interpolate c
  = ((arg_x c - arg_x1 c) * (arg_y2 c - arg_y1 c) / 1.0 + arg_y1 c)%float.
Proof.
  unfold interp_args. intros H.
  apply bind_ok in H as ([sp1 sp2] & Hidx & H).
  apply bind_ok in H as (y1 & Hy1 & H).
  apply bind_ok in H as (y2 & Hy2 & H).
  injection H as <-.
  apply sample_indices_inv in Hidx as (_ & -> & Hmax).
  apply load_inv in Hy1 as [Hsp1 _].
  assert (Hspan : (double_of_int (sp1 + 1) - double_of_int sp1)%float = 1%float).
  { apply double_succ_sub; [exact Hsp1|].
    assert (2 ^ 53 = 9007199254740992) by reflexivity.
    unfold INT_MAX in Hmax. lia. }
  unfold call_interpolate, interpolate, interp_degenerate.
  cbn [call_sp1 call_sp2 arg_x arg_x1 arg_x2 arg_y1 arg_y2].
  rewrite Hspan.
  repeat split; reflexivity.
Qed.

Lemma interpolate_call_unit_span_witness :
  exists c,
    interp_args (mkSound [1%float; 2%float; 7%float] 2) 4 3 = Ok c /\
    (arg_x2 c - arg_x1 c)%float = 1%float /\
    interp_degenerate (arg_x1 c) (arg_x2 c) = false.
Proof.
  eexists. split; [vm_compute; reflexivity|].
  split;
    apply (interpolate_call_unit_span
             (mkSound [1%float; 2%float; 7%float] 2) 4 3);
    vm_compute; reflexivity.
Defined.

(** ** [fadeout] *)

Lemma fadeout_spec (s : sound) (n : Z) :
  0 <= n <= Z.of_nat (length (data s)) ->
  exists s',
    fadeout s n = Ok s' /\
    nsamples s' = nsamples s /\
    length (data s') = length (data s) /\
    (forall (i : nat) x, Z.of_nat i < n -> data s !! i = Some x ->
        data s' !! i = Some (x * fade_factor (Z.of_nat i) n)%float) /\
    (forall i : nat, n <= Z.of_nat i -> data s' !! i = data s !! i).
Proof.
  intros Hn. unfold fadeout.
  destruct (map_loop_spec (fun i x => (x * fade_factor i n)%float) n (data s) Hn)
    as (d' & Hrun & Hlen & Hlo & Hhi).
  exists (mkSound d' (nsamples s)). rewrite Hrun. cbn. auto.
Qed.

Lemma fadeout_loop_spec (n : Z) (k : nat) :
  forall (j : Z) (s : sound),
    0 <= n <= Z.of_nat (length (data s)) ->
    exists s',
      for_up k j (fun _ t => fadeout t n) s = Ok s' /\
      nsamples s' = nsamples s /\
      length (data s') = length (data s) /\
      (forall (i : nat) x, Z.of_nat i < n -> data s !! i = Some x ->
          data s' !! i = Some (compound k (fade_factor (Z.of_nat i) n) x)) /\
      (forall i : nat, n <= Z.of_nat i -> data s' !! i = data s !! i).
Proof.
  induction k as [|k IH]; intros j s Hn.
  - exists s. cbn. auto.
  - destruct (fadeout_spec s n Hn) as (s1 & Hrun1 & Hns1 & Hlen1 & Hlo1 & Hhi1).
    destruct (IH (j + 1) s1 ltac:(lia))
      as (s2 & Hrun2 & Hns2 & Hlen2 & Hlo2 & Hhi2).
    exists s2. cbn [for_up]. rewrite Hrun1. run_bind.
    split; [exact Hrun2|]. split; [congruence|]. split; [congruence|]. split.
    + intros i x Hi Hx.
      rewrite (Hlo2 i _ Hi (Hlo1 i x Hi Hx)).
      unfold compound. now rewrite Nat.iter_succ_r.
    + intros i Hi. rewrite Hhi2, Hhi1 by lia. reflexivity.
Qed.

(** C8: [k] applications of [fadeout] over the same prefix [n] multiply
    sample [i < n] [k] times by the factor [1 - i/n] (the power curve
    [(1 - i/n)^k], each product rounded as the program rounds it) and leave
    the samples from [n] on unchanged; one application multiplies once, and
    the factor of sample 0 is exactly 1.0. *)
Theorem fadeout_compounds (s : sound) (n : Z) (k : nat) :
  1 <= n <= Z.of_nat (length (data s)) ->
  n <= INT_MAX ->
  (exists s',
     fadeout_repeated k s n = Ok s' /\
     nsamples s' = nsamples s /\
     (forall (i : nat) x, Z.of_nat i < n -> data s !! i = Some x ->
        data s' !! i
        = Some (compound k
                  (1.0 - double_of_int (Z.of_nat i) / double_of_int n) x)) /\
     (forall i : nat, n <= Z.of_nat i -> data s' !! i = data s !! i)) /\
  (exists s1,
     fadeout s n = Ok s1 /\
     (forall (i : nat) x, Z.of_nat i < n -> data s !! i = Some x ->
        data s1 !! i
        = Some (x * (1.0 - double_of_int (Z.of_nat i) / double_of_int n))%float) /\
     (forall i : nat, n <= Z.of_nat i -> data s1 !! i = data s !! i)) /\
  (1.0 - double_of_int 0 / double_of_int n)%float = 1%float.
Proof.
  intros Hn Hmax. split; [|split].
  - destruct (fadeout_loop_spec n k 0 s ltac:(lia))
      as (s' & Hrun & Hns & _ & Hlo & Hhi).
    exists s'. auto.
  - destruct (fadeout_spec s n ltac:(lia)) as (s1 & Hrun & _ & _ & Hlo & Hhi).
    exists s1. auto.
  - apply fade_factor_zero.
    assert (2 ^ 53 = 9007199254740992) by reflexivity.
    unfold INT_MAX in Hmax. lia.
Qed.

Lemma fadeout_compounds_witness :
  let s := mkSound [1%float; 1%float; 1%float; 1%float; 5%float] 5 in
  exists s',
    fadeout_repeated 2 s 4 = Ok s' /\
    data s' !! 1%nat = Some (compound 2 0.75 1)%float /\
    data s' !! 4%nat = Some 5%float.
Proof.
  intros s.
  assert (Hn : 1 <= 4 <= Z.of_nat (length (data s)))
    by (vm_compute; split; discriminate).
  assert (Hmax : 4 <= INT_MAX) by (vm_compute; discriminate).
  destruct (fadeout_compounds s 4 2 Hn Hmax)
    as ((s' & Hrun & _ & Hlo & Hhi) & _ & _).
  exists s'. split; [exact Hrun|]. split.
  - apply (Hlo 1%nat 1%float); [vm_compute|]; reflexivity.
  - rewrite (Hhi 4%nat); [reflexivity | vm_compute; discriminate].
Defined.

(** ** [add_sound] and [accumulate_sound] *)

(** Starting the sum from 0.0 gives the plain sum of the two samples, but
    for two negative zeros, whose sum comes out as +0.0 instead of -0.0. *)
Lemma sum_from_zero (x y : float) :
  (0 + x + y)%float = (x + y)%float \/
  (x = neg_zero /\ y = neg_zero /\
   (0 + x + y)%float = 0%float /\ (x + y)%float = neg_zero).
Proof.
  destruct (Prim2SF x) as [[|]|sx| |sx mx ex] eqn:Ex.
  - (* x = -0.0 *)
    assert (Hx : x = neg_zero)
      by (rewrite <- (SF2Prim_Prim2SF x), Ex; reflexivity).
    subst x.
    destruct (Prim2SF y) as [[|]|sy| |sy my ey] eqn:Ey.
    + right. assert (Hy : y = neg_zero)
        by (rewrite <- (SF2Prim_Prim2SF y), Ey; reflexivity).
      subst y. repeat split; reflexivity.
    + left. apply Prim2SF_inj. rewrite !FloatAxioms.add_spec, Ey. reflexivity.
    + left. apply Prim2SF_inj. rewrite !FloatAxioms.add_spec, Ey.
      destruct sy; reflexivity.
    + left. apply Prim2SF_inj. rewrite !FloatAxioms.add_spec, Ey. reflexivity.
    + left. apply Prim2SF_inj. rewrite !FloatAxioms.add_spec, Ey. reflexivity.
  - left. f_equal. apply Prim2SF_inj. rewrite FloatAxioms.add_spec, Ex. reflexivity.
  - left. f_equal. apply Prim2SF_inj. rewrite FloatAxioms.add_spec, Ex.
    destruct sx; reflexivity.
  - left. f_equal. apply Prim2SF_inj. rewrite FloatAxioms.add_spec, Ex. reflexivity.
  - left. f_equal. apply Prim2SF_inj. rewrite FloatAxioms.add_spec, Ex. reflexivity.
Qed.

Lemma add_sound_refines_mix (a b : sound) :
  well_formed a -> well_formed b -> add_sound a b = Ok (mix_spec a b).
Proof.
  unfold well_formed. intros Ha Hb. unfold add_sound, mix_spec.
  set (n := Z.max (nsamples a) (nsamples b)).
  replace (if nsamples a <? nsamples b then nsamples b else nsamples a) with n
    by (unfold n; destruct (Z.ltb_spec (nsamples a) (nsamples b)); lia).
  unfold malloc_doubles. destruct (Z.ltb_spec n 0); [lia|].
  run_bind.
  pose (P := fun (j : Z) (st : sound) =>
    nsamples st = j /\
    Z.of_nat (length (data st)) = n /\
    forall k : nat, Z.of_nat k < j -> data st !! k = Some (mix_sample a b k)).
  destruct (for_range_inv P (add_sound_step a b) 0 n
              (mkSound (replicate (Z.to_nat n) 0%float) 0))
    as ([d' n'] & Hrun & Hn' & Hlen & Hval); [lia | | | ].
  - unfold P. cbn [data nsamples]. rewrite length_replicate.
    split; [reflexivity|]. split; [lia | intros; lia].
  - intros j [d nj] Hj (Hnj & Hlen & Hval). cbn [data nsamples] in *.
    unfold add_sound_step. cbn [data nsamples].
    rewrite store_ok by lia. run_bind.
    set (d0 := <[Z.to_nat j := 0%float]> d).
    assert (Hlen0 : length d0 = length d) by apply length_insert.
    assert (Hd0 : d0 !! Z.to_nat j = Some 0%float)
      by (apply list_lookup_insert_eq; lia).
    (* the sample of [a] *)
    assert (Hstep1 : exists d1,
      (if j <? nsamples a
       then x ← load d0 j; y ← load (data a) j; store d0 j (x + y)%float
       else Ok d0) = Ok d1 /\
      length d1 = length d /\
      d1 !! Z.to_nat j = Some (0 + sample_or_zero a (Z.to_nat j))%float /\
      forall k : nat, k <> Z.to_nat j -> d1 !! k = d !! k).
    { unfold sample_or_zero. rewrite Z2Nat.id by lia.
      destruct (Z.ltb_spec j (nsamples a)).
      - destruct (lookup_in_range (data a) (Z.to_nat j)) as [y Hy]; [lia|].
        rewrite (load_ok d0 j 0%float) by (lia || exact Hd0).
        run_bind.
        rewrite (load_ok (data a) j y) by (lia || exact Hy).
        run_bind.
        rewrite store_ok by lia. eexists. split; [reflexivity|].
        rewrite Hy. cbn [default from_option].
        split; [now rewrite length_insert|].
        split; [apply list_lookup_insert_eq; lia|].
        intros k Hk. unfold d0. now rewrite !list_lookup_insert_ne by congruence.
      - exists d0. split; [reflexivity|]. split; [exact Hlen0|].
        split; [exact Hd0|].
        intros k Hk. unfold d0. now rewrite list_lookup_insert_ne by congruence. }
    destruct Hstep1 as (d1 & -> & Hlen1 & Hd1 & Hoth1).
    run_bind.
    (* the sample of [b] *)
    assert (Hstep2 : exists d2,
      (if j <? nsamples b
       then x ← load d1 j; y ← load (data b) j; store d1 j (x + y)%float
       else Ok d1) = Ok d2 /\
      length d2 = length d /\
      d2 !! Z.to_nat j = Some (mix_sample a b (Z.to_nat j)) /\
      forall k : nat, k <> Z.to_nat j -> d2 !! k = d !! k).
    { unfold mix_sample. unfold sample_or_zero at 2. rewrite Z2Nat.id by lia.
      destruct (Z.ltb_spec j (nsamples b)).
      - destruct (lookup_in_range (data b) (Z.to_nat j)) as [y Hy]; [lia|].
        rewrite (load_ok d1 j _ ltac:(lia) Hd1).
        run_bind.
        rewrite (load_ok (data b) j y) by (lia || exact Hy).
        run_bind.
        rewrite store_ok by lia. eexists. split; [reflexivity|].
        rewrite Hy. cbn [default from_option].
        split; [now rewrite length_insert|].
        split; [apply list_lookup_insert_eq; lia|].
        intros k Hk. rewrite list_lookup_insert_ne by congruence. now apply Hoth1.
      - exists d1. split; [reflexivity|]. split; [exact Hlen1|].
        split; [|exact Hoth1].
        rewrite Hd1. now rewrite add_zero_after_zero. }
    destruct Hstep2 as (d2 & -> & Hlen2 & Hd2 & Hoth2).
    run_bind.
    eexists. split; [reflexivity|]. unfold P. cbn [data nsamples].
    split; [lia|]. split; [lia|].
    intros k Hk. destruct (decide (k = Z.to_nat j)) as [->|Hne]; [exact Hd2|].
    rewrite Hoth2 by exact Hne. apply Hval. lia.
  - cbn [data nsamples] in *. rewrite Hrun. do 2 f_equal; [|exact Hn'].
    apply list_eq. intros k. rewrite list_lookup_fmap.
    destruct (decide (k < Z.to_nat n)%nat) as [Hk|Hk].
    + rewrite Hval by lia. rewrite lookup_seq_lt by exact Hk. reflexivity.
    + rewrite lookup_seq_ge by lia. apply lookup_ge_None_2. lia.
Qed.

(** C9: [accumulate_sound (acc, inc)] leaves behind [acc] exactly the mix
    of the old [*acc] and [*inc], its length the larger of the two lengths
    and each sample the sum of the two samples with a missing one as zero;
    [*inc], and every other sound, is as it was. *)
Theorem accumulate_sound_mix_frame
    (h : heap) (acc inc : positive) (a i : sound) :
  acc <> inc ->
  h !! acc = Some a ->
  h !! inc = Some i ->
  well_formed a ->
  well_formed i ->
  exists h',
    accumulate_sound acc inc h = Ok h' /\
    h' !! acc = Some (mix_spec a i) /\
    nsamples (mix_spec a i) = Z.max (nsamples a) (nsamples i) /\
    Z.of_nat (length (data (mix_spec a i))) = Z.max (nsamples a) (nsamples i) /\
    (forall k : nat, Z.of_nat k < Z.max (nsamples a) (nsamples i) ->
       data (mix_spec a i) !! k
       = Some (0 + sample_or_zero a k + sample_or_zero i k)%float) /\
    h' !! inc = Some i /\
    (forall p, p <> acc -> h' !! p = h !! p).
Proof.
  intros Hne Hacc Hinc Ha Hi.
  exists (<[acc := mix_spec a i]> (<[acc := free_sound a]> h)).
  split; [|split; [|split; [|split; [|split; [|split]]]]].
  - unfold accumulate_sound, deref. rewrite Hacc, Hinc.
    run_bind.
    rewrite (add_sound_refines_mix a i Ha Hi). reflexivity.
  - apply lookup_insert_eq.
  - reflexivity.
  - unfold mix_spec. cbn [data]. rewrite length_fmap, length_seq.
    unfold well_formed in *. lia.
  - intros k Hk. unfold mix_spec. cbn [data].
    rewrite list_lookup_fmap, lookup_seq_lt by lia. reflexivity.
  - rewrite !lookup_insert_ne by exact Hne. exact Hinc.
  - intros p Hp. rewrite !lookup_insert_ne by congruence. reflexivity.
Qed.

Lemma accumulate_sound_mix_frame_witness :
  let a := mkSound [1%float; 2%float; 3%float] 3 in
  let i := mkSound [10%float] 1 in
  let h : heap := <[1%positive := a]> (<[2%positive := i]> ∅) in
  exists h',
    accumulate_sound 1 2 h = Ok h' /\
    h' !! 1%positive = Some (mkSound [11%float; 2%float; 3%float] 3) /\
    h' !! 2%positive = Some i.
Proof.
  intros a i h.
  assert (Hne : 1%positive <> 2%positive) by discriminate.
  assert (Hacc : h !! 1%positive = Some a) by reflexivity.
  assert (Hinc : h !! 2%positive = Some i) by reflexivity.
  assert (Ha : well_formed a) by (vm_compute; split; discriminate).
  assert (Hi : well_formed i) by (vm_compute; split; discriminate).
  destruct (accumulate_sound_mix_frame h 1 2 a i Hne Hacc Hinc Ha Hi)
    as (h' & Hrun & Hmix & _ & _ & _ & Hframe & _).
  exists h'. split; [exact Hrun|]. split; [|exact Hframe].
  rewrite Hmix. reflexivity.
Defined.

(** * Further properties of the buffer operations *)

(** ** Loops that are known to have returned *)

Lemma for_up_ok_inv {St : Type} (P : Z -> St -> Prop)
    (body : Z -> St -> result St) :
  forall (n : nat) (i : Z) (st st' : St),
    for_up n i body st = Ok st' ->
    P i st ->
    (forall j s s', i <= j < i + Z.of_nat n -> body j s = Ok s' ->
                    P j s -> P (j + 1) s') ->
    P (i + Z.of_nat n) st'.
Proof.
  induction n as [|n IH]; intros i st st' Hrun HP Hstep.
  - cbn in Hrun. injection Hrun as <-.
    now replace (i + Z.of_nat 0) with i by lia.
  - cbn [for_up] in Hrun. apply bind_ok in Hrun as (s1 & Hb & Hrun).
    replace (i + Z.of_nat (S n)) with (i + 1 + Z.of_nat n) by lia.
    apply (IH (i + 1) s1 st' Hrun).
    + apply (Hstep i st s1); [lia | exact Hb | exact HP].
    + intros j s s' Hj. apply Hstep. lia.
Qed.

Lemma for_range_ok_inv {St : Type} (P : Z -> St -> Prop)
    (body : Z -> St -> result St) (a b : Z) (st st' : St) :
  a <= b ->
  for_range a b body st = Ok st' ->
  P a st ->
  (forall j s s', a <= j < b -> body j s = Ok s' -> P j s -> P (j + 1) s') ->
  P b st'.
Proof.
  intros Hab Hrun HP Hstep. unfold for_range in Hrun.
  assert (Hb : b = a + Z.of_nat (Z.to_nat (b - a))) by lia.
  rewrite Hb.
  apply (for_up_ok_inv P body _ a st st' Hrun HP).
  intros j s s' Hj. apply Hstep. lia.
Qed.

Lemma for_range_empty {St : Type} (body : Z -> St -> result St)
    (a b : Z) (st : St) :
  b <= a -> for_range a b body st = Ok st.
Proof.
  intros H. unfold for_range. now replace (Z.to_nat (b - a)) with 0%nat by lia.
Qed.

Lemma for_range_first_fault {St : Type} (body : Z -> St -> result St)
    (a b : Z) (st : St) (f : fault) :
  a < b -> body a st = Fault f -> for_range a b body st = Fault f.
Proof.
  intros H Hb. unfold for_range.
  destruct (Z.to_nat (b - a)) as [|n] eqn:E; [lia|].
  cbn [for_up]. now rewrite Hb.
Qed.

(** The loops of the form [for (i = 0; i < n; i++) d[i] = src[i]]. *)
Lemma copy_loop_spec (src d : list float) (n : Z) :
  0 <= n <= Z.of_nat (length src) ->
  n <= Z.of_nat (length d) ->
  exists d',
    for_range 0 n (fun i d => x ← load src i; store d i x) d = Ok d' /\
    length d' = length d /\
    (forall k : nat, Z.of_nat k < n -> d' !! k = src !! k) /\
    (forall k : nat, n <= Z.of_nat k -> d' !! k = d !! k).
Proof.
  intros Hn Hd.
  pose (P := fun (i : Z) (d' : list float) =>
    length d' = length d /\
    (forall k : nat, Z.of_nat k < i -> d' !! k = src !! k) /\
    (forall k : nat, i <= Z.of_nat k -> d' !! k = d !! k)).
  destruct (for_range_inv P (fun i d => x ← load src i; store d i x) 0 n d)
    as (d' & Hrun & HP); [lia | | | ].
  - split; [reflexivity|]. split; [intros; lia | reflexivity].
  - intros j dj Hj (Hlen & Hlo & Hhi).
    destruct (lookup_in_range src (Z.to_nat j) ltac:(lia)) as [x Hx].
    exists (<[Z.to_nat j := x]> dj). split.
    + rewrite (load_ok src j x) by (lia || exact Hx). run_bind.
      apply store_ok. lia.
    + split; [now rewrite length_insert|]. split.
      * intros k Hk. destruct (decide (k = Z.to_nat j)) as [->|Hne].
        -- rewrite list_lookup_insert_eq by lia. now rewrite Hx.
        -- rewrite list_lookup_insert_ne by congruence. apply Hlo. lia.
      * intros k Hk. rewrite list_lookup_insert_ne by lia. apply Hhi. lia.
  - exists d'. split; [exact Hrun|exact HP].
Qed.

(** ** Order and sums of doubles *)

Lemma SFadd_comm (x y : spec_float) : SF64add x y = SF64add y x.
Proof.
  unfold SF64add.
  destruct x as [[|]|[|]| |sx mx ex], y as [[|]|[|]| |sy my ey];
    try reflexivity.
  unfold SFadd. rewrite (Z.min_comm ex ey). f_equal. apply Z.add_comm.
Qed.

Lemma float_add_comm (x y : float) : (x + y)%float = (y + x)%float.
Proof.
  apply Prim2SF_inj. rewrite !FloatAxioms.add_spec. apply SFadd_comm.
Qed.

(** Adding 0.0 first only turns a negative zero into a positive one. *)
Lemma zero_plus (x : float) :
  (0 + x)%float = x \/ (x = neg_zero /\ (0 + x)%float = 0%float).
Proof.
  destruct (Prim2SF x) as [[|]|sx| |sx mx ex] eqn:Ex.
  - right. assert (Hx : x = neg_zero)
      by (rewrite <- (SF2Prim_Prim2SF x), Ex; reflexivity).
    subst x. split; reflexivity.
  - left. apply Prim2SF_inj. rewrite FloatAxioms.add_spec, Ex. reflexivity.
  - left. apply Prim2SF_inj. rewrite FloatAxioms.add_spec, Ex.
    destruct sx; reflexivity.
  - left. apply Prim2SF_inj. rewrite FloatAxioms.add_spec, Ex. reflexivity.
  - left. apply Prim2SF_inj. rewrite FloatAxioms.add_spec, Ex. reflexivity.
Qed.

Lemma sum_from_zero_comm (x y : float) :
  (0 + x + y)%float = (0 + y + x)%float.
Proof.
  apply Prim2SF_inj. rewrite !FloatAxioms.add_spec.
  change (Prim2SF 0) with (S754_zero false).
  destruct (Prim2SF x) as [[|]|[|]| |sx mx ex],
           (Prim2SF y) as [[|]|[|]| |sy my ey];
    try reflexivity.
  change (SF64add (S754_zero false) (S754_finite sx mx ex))
    with (S754_finite sx mx ex).
  change (SF64add (S754_zero false) (S754_finite sy my ey))
    with (S754_finite sy my ey).
  apply SFadd_comm.
Qed.

(** ** [add_sound] as an operation on two sounds *)

Lemma mix_spec_comm (a b : sound) : mix_spec a b = mix_spec b a.
Proof.
  unfold mix_spec. rewrite (Z.max_comm (nsamples b) (nsamples a)). f_equal.
  apply list_fmap_ext. intros _ k _. unfold mix_sample.
  apply sum_from_zero_comm.
Qed.

(** X1: [add_sound] commutes, bit for bit: on two sounds that lie inside
    their blocks it returns, in either order, the same sound, as long as the
    longer of the two. *)
Theorem add_sound_commutes (a b : sound) :
  well_formed a -> well_formed b ->
  exists t,
    add_sound a b = Ok t /\
    add_sound b a = Ok t /\
    nsamples t = Z.max (nsamples a) (nsamples b) /\
    Z.of_nat (length (data t)) = nsamples t.
Proof.
  intros Ha Hb. exists (mix_spec a b).
  split; [apply add_sound_refines_mix; assumption|].
  split; [rewrite mix_spec_comm; apply add_sound_refines_mix; assumption|].
  split; [reflexivity|].
  unfold mix_spec. cbn [data nsamples]. rewrite length_fmap, length_seq.
  unfold well_formed in *. lia.
Qed.

Lemma add_sound_commutes_witness :
  let a := mkSound [1%float; 2%float; 3%float] 3 in
  let b := mkSound [0.5%float; neg_zero] 2 in
  exists t, add_sound a b = Ok t /\ add_sound b a = Ok t /\ nsamples t = 3.
Proof.
  intros a b.
  assert (Ha : well_formed a) by (vm_compute; split; discriminate).
  assert (Hb : well_formed b) by (vm_compute; split; discriminate).
  destruct (add_sound_commutes a b Ha Hb) as (t & H1 & H2 & H3 & _).
  exists t. split; [exact H1|]. split; [exact H2|]. rewrite H3. reflexivity.
Defined.

(** X2: adding a silent sound that is no longer than [a] gives back the
    samples of [a], but that a sample -0.0 comes back as +0.0. *)
Theorem add_sound_silence (a b : sound) :
  well_formed a -> well_formed b ->
  nsamples b <= nsamples a ->
  (forall (k : nat) x, Z.of_nat k < nsamples b -> data b !! k = Some x ->
                       x = 0%float) ->
  exists t,
    add_sound a b = Ok t /\
    nsamples t = nsamples a /\
    forall (k : nat) x, Z.of_nat k < nsamples a -> data a !! k = Some x ->
      data t !! k = Some x \/
      (x = neg_zero /\ data t !! k = Some 0%float).
Proof.
  intros Ha Hb Hle Hz. exists (mix_spec a b).
  split; [apply add_sound_refines_mix; assumption|].
  split; [unfold mix_spec; cbn [nsamples]; lia|].
  intros k x Hk Hx.
  assert (Hlook : data (mix_spec a b) !! k = Some (mix_sample a b k)).
  { unfold mix_spec. cbn [data].
    rewrite list_lookup_fmap, lookup_seq_lt by lia. reflexivity. }
  rewrite Hlook. unfold mix_sample.
  assert (Hsa : sample_or_zero a k = x).
  { unfold sample_or_zero. destruct (Z.ltb_spec (Z.of_nat k) (nsamples a)); [|lia].
    now rewrite Hx. }
  assert (Hsb : sample_or_zero b k = 0%float).
  { unfold sample_or_zero.
    destruct (Z.ltb_spec (Z.of_nat k) (nsamples b)); [|reflexivity].
    unfold well_formed in Hb.
    destruct (lookup_in_range (data b) k ltac:(lia)) as [y Hy].
    rewrite Hy. cbn. exact (Hz k y ltac:(lia) Hy). }
  rewrite Hsa, Hsb, add_zero_after_zero.
  destruct (zero_plus x) as [-> | [-> ->]]; [left | right]; auto.
Qed.

Lemma add_sound_silence_witness :
  let a := mkSound [1%float; neg_zero; 3%float] 3 in
  let b := mkSound [0%float; 0%float] 2 in
  exists t, add_sound a b = Ok t /\ nsamples t = 3.
Proof.
  intros a b.
  assert (Ha : well_formed a) by (vm_compute; split; discriminate).
  assert (Hb : well_formed b) by (vm_compute; split; discriminate).
  assert (Hle : nsamples b <= nsamples a) by (vm_compute; discriminate).
  assert (Hz : forall (k : nat) x, Z.of_nat k < nsamples b ->
                 data b !! k = Some x -> x = 0%float).
  { intros [|[|k]] x Hk Hx; cbn in Hx; try congruence; cbn in Hk; lia. }
  destruct (add_sound_silence a b Ha Hb Hle Hz) as (t & Hrun & Hn & _).
  exists t. split; [exact Hrun | exact Hn].
Defined.

(** ** [trim_trailing_silence] on whole buffers *)

Lemma count_silent_bounds (l : list float) :
  0 <= count_silent l <= Z.of_nat (length l).
Proof.
  induction l as [|x l IH]; cbn [count_silent length]; [lia|].
  destruct (is_silent x); lia.
Qed.

Lemma count_silent_app (l1 l2 : list float) :
  count_silent (l1 ++ l2) = count_silent l1 + count_silent l2.
Proof.
  induction l1 as [|x l1 IH]; cbn [count_silent app]; [lia|].
  rewrite IH. lia.
Qed.

Lemma count_silent_none (l : list float) :
  Forall (fun x => is_silent x = false) l -> count_silent l = 0.
Proof.
  induction 1 as [|x l Hx _ IH]; cbn [count_silent]; [reflexivity|].
  rewrite Hx, IH. reflexivity.
Qed.

Lemma count_silent_all (l : list float) :
  Forall (fun x => is_silent x = true) l -> count_silent l = Z.of_nat (length l).
Proof.
  induction 1 as [|x l Hx _ IH]; cbn [count_silent length]; [reflexivity|].
  rewrite Hx, IH. lia.
Qed.

(** X3: [trim_trailing_silence] never touches the block and shortens the
    sound by the number of silent samples anywhere in it, not only at its
    end; the new length stays between 0 and the old one. *)
Theorem trim_shortens_by_silent_count (s : sound) :
  well_formed s ->
  exists s',
    trim_trailing_silence s = Ok s' /\
    data s' = data s /\
    nsamples s'
    = nsamples s - count_silent (take (Z.to_nat (nsamples s)) (data s)) /\
    0 <= nsamples s' <= nsamples s.
Proof.
  intros Hwf. rewrite (trim_length_spec s Hwf). eexists.
  split; [reflexivity|]. cbn [data nsamples].
  split; [reflexivity|]. split; [reflexivity|].
  pose proof (count_silent_bounds (take (Z.to_nat (nsamples s)) (data s))) as Hc.
  rewrite length_take in Hc. unfold well_formed in Hwf. lia.
Qed.

Lemma trim_shortens_by_silent_count_witness :
  exists s',
    trim_trailing_silence
      (mkSound [1%float; 0%float; 2%float; 0%float; 9%float] 4) = Ok s' /\
    nsamples s' = 2.
Proof.
  assert (Hwf : well_formed
                  (mkSound [1%float; 0%float; 2%float; 0%float; 9%float] 4))
    by (vm_compute; split; discriminate).
  destruct (trim_shortens_by_silent_count _ Hwf) as (s' & Hrun & _ & Hn & _).
  exists s'. split; [exact Hrun|]. rewrite Hn. vm_compute. reflexivity.
Defined.

(** X4: when the silent samples of a sound are exactly its tail, the trim
    cuts that tail off and nothing else. *)
Theorem trim_cuts_silent_tail (s : sound) (l1 l2 : list float) :
  well_formed s ->
  take (Z.to_nat (nsamples s)) (data s) = l1 ++ l2 ->
  Forall (fun x => is_silent x = false) l1 ->
  Forall (fun x => is_silent x = true) l2 ->
  trim_trailing_silence s = Ok (mkSound (data s) (Z.of_nat (length l1))).
Proof.
  intros Hwf Hsplit H1 H2. rewrite (trim_length_spec s Hwf). do 2 f_equal.
  rewrite Hsplit, count_silent_app, (count_silent_none l1 H1),
    (count_silent_all l2 H2).
  assert (Hlen : length (take (Z.to_nat (nsamples s)) (data s))
                 = Z.to_nat (nsamples s))
    by (rewrite length_take; unfold well_formed in Hwf; lia).
  rewrite Hsplit, length_app in Hlen. unfold well_formed in Hwf. lia.
Qed.

Lemma trim_cuts_silent_tail_witness :
  trim_trailing_silence (mkSound [1%float; 2%float; 0%float; 0%float] 4)
  = Ok (mkSound [1%float; 2%float; 0%float; 0%float] 2).
Proof.
  apply (trim_cuts_silent_tail
           (mkSound [1%float; 2%float; 0%float; 0%float] 4)
           [1%float; 2%float] [0%float; 0%float]).
  - vm_compute. split; discriminate.
  - reflexivity.
  - repeat constructor.
  - repeat constructor.
Defined.

(** ** [delay_effect_in_place] for any delay that is not negative *)

(** X5: for a delay [d >= 0] the shift leaves 0.0 in the samples [0 .. d]
    and the old sample [k - d] in every sample [k > d]; going from the end
    to the start, each read still finds the old value.  Sample [d] is
    cleared too, so the old sample 0 is always lost. *)
Theorem delay_shifts_and_clears (s : sound) (delay_samples : Z) :
  well_formed s ->
  0 <= delay_samples ->
  exists s',
    delay_effect_in_place s delay_samples = Ok s' /\
    nsamples s' = nsamples s /\
    length (data s') = length (data s) /\
    (forall k : nat, Z.of_nat k < nsamples s ->
       data s' !! k
       = if delay_samples <? Z.of_nat k
         then data s !! Z.to_nat (Z.of_nat k - delay_samples)
         else Some 0%float) /\
    (forall k : nat, nsamples s <= Z.of_nat k -> data s' !! k = data s !! k).
Proof.
  unfold well_formed. intros Hwf Hd. unfold delay_effect_in_place.
  set (n := nsamples s) in *. set (d0 := data s) in *.
  pose (P := fun (j : Z) (d : list float) =>
    length d = length d0 /\
    (forall k : nat, Z.of_nat k <= j -> d !! k = d0 !! k) /\
    (forall k : nat, j < Z.of_nat k < n ->
       d !! k = if delay_samples <? Z.of_nat k
                then d0 !! Z.to_nat (Z.of_nat k - delay_samples)
                else Some 0%float) /\
    (forall k : nat, n <= Z.of_nat k -> d !! k = d0 !! k)).
  destruct (for_countdown_inv P (delay_step n delay_samples) (n - 1) d0)
    as (d' & Hrun & Hlen & _ & Hval & Hrest); [lia | | | ].
  - split; [reflexivity|]. split; [reflexivity|].
    split; [intros; lia | reflexivity].
  - intros j d Hj (Hlen & Hlo & Hhi & Hrest). unfold delay_step.
    destruct (Z.ltb_spec (j - delay_samples) n); [|lia].
    destruct (Z.ltb_spec 0 (j - delay_samples)) as [Hsrc|Hsrc].
    + destruct (lookup_in_range d0 (Z.to_nat (j - delay_samples)) ltac:(lia))
        as [x Hx].
      assert (Hdx : d !! Z.to_nat (j - delay_samples) = Some x)
        by (rewrite Hlo by lia; exact Hx).
      exists (<[Z.to_nat j := x]> d). split.
      * rewrite (load_ok d (j - delay_samples) x) by (lia || exact Hdx).
        run_bind. apply store_ok. lia.
      * split; [now rewrite length_insert|]. split; [|split].
        -- intros k Hk. rewrite list_lookup_insert_ne by lia. apply Hlo. lia.
        -- intros k Hk. destruct (decide (k = Z.to_nat j)) as [->|Hne].
           ++ rewrite list_lookup_insert_eq by lia.
              rewrite Z2Nat.id by lia.
              destruct (Z.ltb_spec delay_samples j); [|lia].
              now rewrite Hx.
           ++ rewrite list_lookup_insert_ne by congruence. apply Hhi. lia.
        -- intros k Hk. rewrite list_lookup_insert_ne by lia. now apply Hrest.
    + exists (<[Z.to_nat j := 0%float]> d). split; [apply store_ok; lia|].
      split; [now rewrite length_insert|]. split; [|split].
      * intros k Hk. rewrite list_lookup_insert_ne by lia. apply Hlo. lia.
      * intros k Hk. destruct (decide (k = Z.to_nat j)) as [->|Hne].
        -- rewrite list_lookup_insert_eq by lia.
           rewrite Z2Nat.id by lia.
           destruct (Z.ltb_spec delay_samples j); [lia|reflexivity].
        -- rewrite list_lookup_insert_ne by congruence. apply Hhi. lia.
      * intros k Hk. rewrite list_lookup_insert_ne by lia. now apply Hrest.
  - exists (mkSound d' n). rewrite Hrun. cbn [data nsamples].
    split; [reflexivity|]. split; [reflexivity|]. split; [exact Hlen|].
    split; [|exact Hrest].
    intros k Hk. apply Hval. lia.
Qed.

Lemma delay_shifts_and_clears_witness :
  exists s',
    delay_effect_in_place
      (mkSound [1%float; 2%float; 3%float; 4%float] 4) 1 = Ok s' /\
    data s' !! 3%nat = Some 3%float /\
    data s' !! 1%nat = Some 0%float.
Proof.
  assert (Hwf : well_formed (mkSound [1%float; 2%float; 3%float; 4%float] 4))
    by (vm_compute; split; discriminate).
  assert (Hd : 0 <= 1) by discriminate.
  destruct (delay_shifts_and_clears _ 1 Hwf Hd) as (s' & Hrun & _ & _ & Hval & _).
  exists s'. split; [exact Hrun|]. split.
  - rewrite (Hval 3%nat) by (vm_compute; reflexivity). reflexivity.
  - rewrite (Hval 1%nat) by (vm_compute; reflexivity). reflexivity.
Defined.

(** ** [amplify_in_place] *)

Lemma clamp_unit_bounded (y : float) :
  fgt (clamp_unit y) 1.0 = false /\ flt (clamp_unit y) (-1.0) = false.
Proof.
  unfold clamp_unit, fgt, flt.
  destruct (PrimFloat.ltb 1.0 y) eqn:E1.
  - change (PrimFloat.ltb 1.0 (-1.0)) with false. cbv iota.
    split; reflexivity.
  - destruct (PrimFloat.ltb y (-1.0)) eqn:E2.
    + split; reflexivity.
    + split; assumption.
Qed.

Lemma nan_times (gain : float) : (nan * gain)%float = nan.
Proof.
  apply Prim2SF_inj. rewrite FloatAxioms.mul_spec.
  change (Prim2SF nan) with S754_nan. reflexivity.
Qed.

(** X6: after [amplify_in_place], whatever the gain, no sample in use is
    above 1.0 or below -1.0; a NaN sample stays NaN, which the two
    comparisons of the clamp let through.  The length and the cells past it
    are unchanged. *)
Theorem amplify_clamps (s : sound) (gain : float) :
  well_formed s ->
  exists s',
    amplify_in_place s gain = Ok s' /\
    nsamples s' = nsamples s /\
    length (data s') = length (data s) /\
    (forall (k : nat) x, Z.of_nat k < nsamples s -> data s !! k = Some x ->
       exists y,
         data s' !! k = Some y /\
         fgt y 1.0 = false /\ flt y (-1.0) = false /\
         (x = nan -> y = nan)) /\
    (forall k : nat, nsamples s <= Z.of_nat k -> data s' !! k = data s !! k).
Proof.
  unfold well_formed. intros Hwf. unfold amplify_in_place.
  destruct (map_loop_spec (fun _ x => clamp_unit (x * gain)%float)
              (nsamples s) (data s) Hwf)
    as (d' & Hrun & Hlen & Hlo & Hhi).
  exists (mkSound d' (nsamples s)). rewrite Hrun. cbn [data nsamples].
  split; [reflexivity|]. split; [reflexivity|]. split; [exact Hlen|].
  split; [|exact Hhi].
  intros k x Hk Hx. exists (clamp_unit (x * gain)%float).
  split; [exact (Hlo k x Hk Hx)|].
  destruct (clamp_unit_bounded (x * gain)%float) as [Hhi1 Hlo1].
  split; [exact Hhi1|]. split; [exact Hlo1|].
  intros ->. rewrite nan_times. reflexivity.
Qed.

Lemma amplify_clamps_witness :
  exists s',
    amplify_in_place (mkSound [0.5%float; (-3)%float; nan] 3) 4%float = Ok s' /\
    nsamples s' = 3.
Proof.
  assert (Hwf : well_formed (mkSound [0.5%float; (-3)%float; nan] 3))
    by (vm_compute; split; discriminate).
  destruct (amplify_clamps _ 4%float Hwf) as (s' & Hrun & Hn & _).
  exists s'. split; [exact Hrun | exact Hn].
Defined.

(** ** [renormalize] on any buffer *)

Lemma SFltb_abs_trans (a b c : spec_float) :
  SFltb (SFabs a) (SFabs b) = true ->
  SFltb (SFabs b) (SFabs c) = true ->
  SFltb (SFabs a) (SFabs c) = true.
Proof.
  destruct a as [sa|sa| |sa ma ea], b as [sb|sb| |sb mb eb],
           c as [sc|sc| |sc mc ec];
    cbn; try discriminate; try reflexivity.
  unfold SFltb, SFcompare.
  change (Pos.compare_cont Eq ma mb) with (Pos.compare ma mb).
  change (Pos.compare_cont Eq mb mc) with (Pos.compare mb mc).
  change (Pos.compare_cont Eq ma mc) with (Pos.compare ma mc).
  destruct (Z.compare_spec ea eb), (Z.compare_spec eb ec),
    (Z.compare_spec ea ec); try discriminate; try lia; try reflexivity.
  destruct (Pos.compare_spec ma mb), (Pos.compare_spec mb mc),
    (Pos.compare_spec ma mc); try discriminate; try lia; reflexivity.
Qed.

Lemma fabs_lt_trans (x y z : float) :
  flt (fabs x) (fabs y) = true ->
  flt (fabs y) (fabs z) = true ->
  flt (fabs x) (fabs z) = true.
Proof.
  unfold flt, fabs. rewrite !FloatAxioms.ltb_spec, !FloatAxioms.abs_spec.
  apply SFltb_abs_trans.
Qed.

Lemma flt_irrefl (x : float) : flt x x = false.
Proof.
  unfold flt. rewrite FloatAxioms.ltb_spec. unfold SFltb, SFcompare.
  destruct (Prim2SF x) as [s|[|]| |[|] m e]; try reflexivity;
    rewrite Z.compare_refl, Pos.compare_cont_refl; reflexivity.
Qed.

Lemma abs_max_spec (d : list float) (n : Z) :
  0 <= n <= Z.of_nat (length d) ->
  exists M,
    for_range 0 n (abs_max_step d) 0%float = Ok M /\
    (M = 0%float \/
     exists (k : nat) x, Z.of_nat k < n /\ d !! k = Some x /\ M = fabs x) /\
    (forall (k : nat) x, Z.of_nat k < n -> d !! k = Some x ->
                         fgt (fabs x) M = false).
Proof.
  intros Hn.
  pose (P := fun (j : Z) (M : float) =>
    (exists y, M = fabs y) /\
    (M = 0%float \/
     exists (k : nat) x, Z.of_nat k < j /\ d !! k = Some x /\ M = fabs x) /\
    (forall (k : nat) x, Z.of_nat k < j -> d !! k = Some x ->
                         fgt (fabs x) M = false)).
  destruct (for_range_inv P (abs_max_step d) 0 n 0%float)
    as (M & Hrun & _ & Hatt & Hdom); [lia | | | ].
  - split; [exists 0%float; reflexivity|].
    split; [left; reflexivity | intros; lia].
  - intros j M Hj ([y HM] & Hatt & Hdom).
    destruct (lookup_in_range d (Z.to_nat j) ltac:(lia)) as [x Hx].
    unfold abs_max_step. rewrite (load_ok d j x) by (lia || exact Hx). run_bind.
    eexists. split; [reflexivity|].
    destruct (fgt (fabs x) M) eqn:Egt.
    + split; [exists x; reflexivity|]. split.
      * right. exists (Z.to_nat j), x. split; [lia|]. auto.
      * intros k z Hk Hz. destruct (decide (k = Z.to_nat j)) as [->|Hne].
        -- rewrite Hx in Hz. assert (z = x) as -> by congruence.
           apply flt_irrefl.
        -- specialize (Hdom k z ltac:(lia) Hz).
           destruct (fgt (fabs z) (fabs x)) eqn:E; [|reflexivity].
           subst M. pose proof (fabs_lt_trans y x z Egt E) as Ht.
           unfold fgt in Hdom. unfold flt in Ht. congruence.
    + split; [exists y; exact HM|]. split.
      * destruct Hatt as [->|(k & z & Hk & Hz & ->)]; [left; reflexivity|].
        right. exists k, z. split; [lia|]. auto.
      * intros k z Hk Hz. destruct (decide (k = Z.to_nat j)) as [->|Hne].
        -- rewrite Hx in Hz. assert (z = x) as -> by congruence. exact Egt.
        -- apply (Hdom k z); [lia | exact Hz].
  - exists M. auto.
Qed.

(** X7: on any sound inside its block [renormalize] divides every sample in
    use by 1.001 times a peak [M]; no sample has a magnitude above [M], and
    [M] is the magnitude of one of the samples, or 0.0 when none is above
    0.0.  The length and the cells past it are unchanged. *)
Theorem renormalize_divides_by_peak (s : sound) :
  well_formed s ->
  exists M s',
    renormalize s = Ok s' /\
    nsamples s' = nsamples s /\
    length (data s') = length (data s) /\
    (M = 0%float \/
     exists (k : nat) x,
       Z.of_nat k < nsamples s /\ data s !! k = Some x /\ M = fabs x) /\
    (forall (k : nat) x, Z.of_nat k < nsamples s -> data s !! k = Some x ->
       fgt (fabs x) M = false /\
       data s' !! k = Some (x / (1.001 * M))%float) /\
    (forall k : nat, nsamples s <= Z.of_nat k -> data s' !! k = data s !! k).
Proof.
  unfold well_formed. intros Hwf.
  destruct (abs_max_spec (data s) (nsamples s) Hwf) as (M & Hmax & Hatt & Hdom).
  destruct (map_loop_spec (fun _ x => (x / (1.001 * M))%float)
              (nsamples s) (data s) Hwf)
    as (d' & Hrun & Hlen & Hlo & Hhi).
  exists M, (mkSound d' (nsamples s)).
  unfold renormalize. rewrite Hmax. run_bind. rewrite Hrun. cbn [data nsamples].
  split; [reflexivity|]. split; [reflexivity|]. split; [exact Hlen|].
  split; [exact Hatt|]. split; [|exact Hhi].
  intros k x Hk Hx. split; [exact (Hdom k x Hk Hx) | exact (Hlo k x Hk Hx)].
Qed.

Lemma renormalize_divides_by_peak_witness :
  exists s',
    renormalize (mkSound [0.5%float; (-2)%float; 1%float] 3) = Ok s' /\
    nsamples s' = 3.
Proof.
  assert (Hwf : well_formed (mkSound [0.5%float; (-2)%float; 1%float] 3))
    by (vm_compute; split; discriminate).
  destruct (renormalize_divides_by_peak _ Hwf) as (M & s' & Hrun & Hn & _).
  exists s'. split; [exact Hrun | exact Hn].
Defined.

(** ** The fade passes of a layer *)

Lemma fade_pass_loop (k : nat) :
  forall (j : Z) (t : sound),
    well_formed t ->
    exists t',
      for_up k j fade_pass t = Ok t' /\
      nsamples t' = nsamples t /\
      length (data t') = length (data t) /\
      (forall (i : nat) x, Z.of_nat i < nsamples t -> data t !! i = Some x ->
         data t' !! i
         = Some (compound k (fade_factor (Z.of_nat i) (nsamples t)) x)) /\
      (forall i : nat, nsamples t <= Z.of_nat i -> data t' !! i = data t !! i).
Proof.
  induction k as [|k IH]; intros j t Hwf.
  - exists t. cbn. auto.
  - destruct (fadeout_spec t (nsamples t) Hwf)
      as (t1 & Hrun1 & Hns1 & Hlen1 & Hlo1 & Hhi1).
    assert (Hwf1 : well_formed t1)
      by (unfold well_formed in *; rewrite Hns1, Hlen1; exact Hwf).
    destruct (IH (j + 1) t1 Hwf1) as (t2 & Hrun2 & Hns2 & Hlen2 & Hlo2 & Hhi2).
    rewrite Hns1 in Hlo2, Hhi2.
    exists t2. cbn [for_up].
    change (fade_pass j t) with (fadeout t (nsamples t)).
    rewrite Hrun1. run_bind.
    split; [exact Hrun2|]. split; [congruence|]. split; [congruence|]. split.
    + intros i x Hi Hx.
      rewrite (Hlo2 i _ Hi (Hlo1 i x Hi Hx)).
      unfold compound. now rewrite Nat.iter_succ_r.
    + intros i Hi. rewrite Hhi2, Hhi1 by lia. reflexivity.
Qed.

(** X8: the fade loop of [make_explosion] fades layer [i] over its whole
    length [min (i + 1) 3] times: sample [k] ends up multiplied that many
    times in succession by [1 - k/n], [n] the length of the layer. *)
Theorem layer_fade_passes (t : sound) (i : Z) :
  well_formed t ->
  0 <= i ->
  exists t',
    for_range 0 (fade_iters i) fade_pass t = Ok t' /\
    nsamples t' = nsamples t /\
    (forall (k : nat) x, Z.of_nat k < nsamples t -> data t !! k = Some x ->
       data t' !! k
       = Some (compound (Z.to_nat (Z.min (i + 1) 3))
                 (1.0 - double_of_int (Z.of_nat k) / double_of_int (nsamples t))
                 x)) /\
    (forall k : nat, nsamples t <= Z.of_nat k -> data t' !! k = data t !! k).
Proof.
  intros Hwf Hi. unfold for_range. rewrite fade_iters_spec, Z.sub_0_r.
  destruct (fade_pass_loop (Z.to_nat (Z.min (i + 1) 3)) 0 t Hwf)
    as (t' & Hrun & Hns & _ & Hlo & Hhi).
  exists t'. auto.
Qed.

Lemma layer_fade_passes_witness :
  exists t',
    for_range 0 (fade_iters 5) fade_pass
      (mkSound [1%float; 1%float; 1%float; 1%float] 4) = Ok t' /\
    data t' !! 2%nat = Some 0.125%float.
Proof.
  assert (Hwf : well_formed (mkSound [1%float; 1%float; 1%float; 1%float] 4))
    by (vm_compute; split; discriminate).
  assert (Hi : 0 <= 5) by discriminate.
  destruct (layer_fade_passes _ 5 Hwf Hi) as (t' & Hrun & _ & Hlo & _).
  exists t'. split; [exact Hrun|].
  rewrite (Hlo 2%nat 1%float) by (vm_compute; reflexivity).
  vm_compute. reflexivity.
Defined.

(** ** What [change_speed] returns *)

Lemma store_inv (d d' : list float) (i : Z) (v : float) :
  store d i v = Ok d' ->
  0 <= i < Z.of_nat (length d) /\ d' = <[Z.to_nat i := v]> d.
Proof.
  unfold store.
  destruct (Z.leb_spec 0 i); cbn [andb]; [|discriminate].
  destruct (Z.ltb_spec i (Z.of_nat (length d))); [|discriminate].
  intros Heq. injection Heq as <-. split; [lia|reflexivity].
Qed.

(** X9: whenever [change_speed] returns, the new sound has
    [n' = (int) (nsamples / factor)] samples in a block of [n'] cells with
    [n' >= 1], never an empty one; its first sample is the first sample of
    the source and every later sample [k] is the value of [interpolate] at
    the arguments of iteration [k], both source reads inside the block. *)
Theorem change_speed_result_shape (s : sound) (factor : float) (o : sound) :
  change_speed s factor = Ok o ->
  exists n',
    int_of_double (double_of_int (nsamples s) / factor)%float = Ok n' /\
    1 <= n' /\
    nsamples o = n' /\
    Z.of_nat (length (data o)) = n' /\
    (exists x0, data s !! 0%nat = Some x0 /\ data o !! 0%nat = Some x0) /\
    forall k : nat, 1 <= Z.of_nat k < n' ->
      exists c,
        interp_args s n' (Z.of_nat k) = Ok c /\
        0 <= call_sp1 c /\
        call_sp2 c < Z.of_nat (length (data s)) /\
        data o !! k = Some (call_interpolate c).
Proof.
  unfold change_speed. intros H.
  apply bind_ok in H as (n' & Hn' & H).
  apply bind_ok in H as (o0 & Ho0 & H).
  apply bind_ok in H as (x0 & Hx0 & H).
  apply bind_ok in H as (d1 & Hd1 & H).
  unfold alloc_sound, malloc_doubles in Ho0.
  destruct (Z.ltb_spec n' 0) as [|Hnn]; [discriminate|].
  cbn in Ho0. injection Ho0 as <-. cbn [data] in Hd1.
  apply load_inv in Hx0 as [_ Hx0].
  apply store_inv in Hd1 as [Hcap ->]. rewrite length_replicate in Hcap.
  exists n'. split; [exact Hn'|]. split; [lia|].
  pose (P := fun (j : Z) (o : sound) =>
    nsamples o = j /\
    Z.of_nat (length (data o)) = n' /\
    data o !! 0%nat = Some x0 /\
    forall k : nat, 1 <= Z.of_nat k < j ->
      exists c,
        interp_args s n' (Z.of_nat k) = Ok c /\
        0 <= call_sp1 c /\
        call_sp2 c < Z.of_nat (length (data s)) /\
        data o !! k = Some (call_interpolate c)).
  assert (HP : P n' o).
  { apply (for_range_ok_inv P (change_speed_step s n') 1 n' _ o ltac:(lia) H).
    - unfold P. cbn [data nsamples].
      split; [reflexivity|].
      split; [rewrite length_insert, length_replicate; lia|].
      split; [|intros; lia].
      apply list_lookup_insert_eq. rewrite length_replicate. lia.
    - intros j oj oj' Hj Hstep (Hns & Hlen & Hfirst & Hval).
      unfold change_speed_step in Hstep.
      apply bind_ok in Hstep as (c & Hc & Hstep).
      apply bind_ok in Hstep as (d' & Hd' & Hstep).
      injection Hstep as <-.
      apply store_inv in Hd' as [Hjcap ->].
      unfold P. cbn [data nsamples].
      split; [lia|]. split; [rewrite length_insert; exact Hlen|].
      split; [rewrite list_lookup_insert_ne by lia; exact Hfirst|].
      intros k Hk. destruct (decide (k = Z.to_nat j)) as [->|Hne].
      + exists c. rewrite Z2Nat.id by lia. split; [exact Hc|].
        rewrite list_lookup_insert_eq by lia.
        unfold interp_args in Hc.
        apply bind_ok in Hc as ([sp1 sp2] & Hidx & Hc).
        apply bind_ok in Hc as (y1 & Hy1 & Hc).
        apply bind_ok in Hc as (y2 & Hy2 & Hc).
        injection Hc as <-. cbn [call_sp1 call_sp2].
        apply load_inv in Hy1 as [Hsp1 _].
        apply load_inv in Hy2 as [Hsp2 Hy2].
        apply lookup_lt_Some in Hy2.
        split; [exact Hsp1|]. split; [lia | reflexivity].
      + destruct (Hval k ltac:(lia)) as (c' & Hc' & Hb1 & Hb2 & Hk').
        exists c'. rewrite list_lookup_insert_ne by congruence. auto. }
  destruct HP as (Hns & Hlen & Hfirst & Hval).
  split; [exact Hns|]. split; [exact Hlen|].
  split; [exists x0; auto | exact Hval].
Qed.

Lemma change_speed_result_shape_witness :
  exists o,
    change_speed (mkSound [1%float; 2%float; 3%float; 4%float] 4) 2%float
    = Ok o /\
    nsamples o = 2.
Proof.
  assert (E : exists o,
             change_speed (mkSound [1%float; 2%float; 3%float; 4%float] 4)
               2%float = Ok o)
    by (vm_compute; eexists; reflexivity).
  destruct E as [o E]. exists o. split; [exact E|].
  destruct (change_speed_result_shape _ _ _ E) as (n' & Hn' & _ & -> & _).
  vm_compute in Hn'. congruence.
Defined.

(** ** Noise and the layers of an explosion *)

Lemma make_noise_spec (n : Z) (g : rng) :
  0 <= n ->
  exists s,
    make_noise n g
    = Ok (s, mkRng (rand_values g) (rand_calls g + Z.to_nat n)) /\
    nsamples s = n /\
    Z.of_nat (length (data s)) = n /\
    forall k : nat, Z.of_nat k < n ->
      data s !! k
      = Some (2.0 * (double_of_int (rand_values g (rand_calls g + k))
                     / double_of_int RAND_MAX) - 1.0)%float.
Proof.
  intros Hn. unfold make_noise, alloc_sound, malloc_doubles.
  destruct (Z.ltb_spec n 0); [lia|]. run_bind.
  pose (P := fun (j : Z) (st : sound * rng) =>
    nsamples (fst st) = j /\
    Z.of_nat (length (data (fst st))) = n /\
    snd st = mkRng (rand_values g) (rand_calls g + Z.to_nat j) /\
    forall k : nat, Z.of_nat k < j ->
      data (fst st) !! k
      = Some (2.0 * (double_of_int (rand_values g (rand_calls g + k))
                     / double_of_int RAND_MAX) - 1.0)%float).
  match goal with
  | |- context [for_range 0 n ?body ?init] =>
      destruct (for_range_inv P body 0 n init)
        as ([s g'] & Hrun & Hns & Hlen & Hg & Hval); [lia | | | ]
  end.
  - unfold P. cbn [fst snd data nsamples]. rewrite length_replicate.
    split; [reflexivity|]. split; [lia|].
    split; [|intros; lia].
    destruct g as [vals calls]. cbn. f_equal. lia.
  - intros j [sj gj] Hj (Hns & Hlen & Hg & Hval). cbn [fst snd] in *.
    subst gj. unfold drand, rand. cbn [rand_values rand_calls].
    rewrite store_ok by lia. run_bind.
    eexists. split; [reflexivity|]. unfold P. cbn [fst snd data nsamples].
    split; [lia|]. split; [rewrite length_insert; exact Hlen|].
    split; [f_equal; lia|].
    intros k Hk. destruct (decide (k = Z.to_nat j)) as [->|Hne].
    + rewrite list_lookup_insert_eq by lia. reflexivity.
    + rewrite list_lookup_insert_ne by congruence. apply Hval. lia.
  - cbn [fst snd] in *. subst g'. exists s. auto.
Qed.

(** X10: [make_noise n], for [n >= 0], returns a sound of exactly [n]
    samples in a block of [n] cells and calls [rand] exactly [n] times:
    sample [k] is [2.0 * (r / RAND_MAX) - 1.0] for the [k]-th value [r]
    drawn, and the generator is left [n] calls further. *)
Theorem make_noise_draws (n : Z) (g : rng) :
  0 <= n ->
  exists s,
    make_noise n g
    = Ok (s, mkRng (rand_values g) (rand_calls g + Z.to_nat n)) /\
    nsamples s = n /\
    Z.of_nat (length (data s)) = n /\
    forall k : nat, Z.of_nat k < n ->
      data s !! k
      = Some (2.0 * (double_of_int (rand_values g (rand_calls g + k))
                     / double_of_int RAND_MAX) - 1.0)%float.
Proof. apply make_noise_spec. Qed.

Lemma make_noise_draws_witness :
  exists s,
    make_noise 3 (mkRng (fun k => 7919 * Z.of_nat k) 5)
    = Ok (s, mkRng (fun k => 7919 * Z.of_nat k) 8) /\
    nsamples s = 3.
Proof.
  assert (Hn : 0 <= 3) by discriminate.
  destruct (make_noise_draws 3
              (mkRng (fun k => 7919 * Z.of_nat k) 5) Hn)
    as (s & Hrun & Hns & _).
  exists s. split; [exact Hrun | exact Hns].
Defined.

Lemma make_explosion_ok_layers
    (seconds : float) (layers : Z) (g : rng) (r : sound * rng) :
  make_explosion seconds layers g = Ok r ->
  1 <= layers <= Z.of_nat layer_slots.
Proof.
  unfold make_explosion. intros H.
  apply bind_ok in H as ([s g1] & Hloop & H).
  apply bind_ok in H as (s0 & Hs0 & _).
  destruct (s !! 0%nat) as [s0'|] eqn:E0; [|discriminate].
  apply lookup_lt_Some in E0.
  destruct (Z.le_gt_cases 0 layers) as [Hnn|Hneg].
  - pose (P := fun (j : Z) (st : list sound * rng) =>
      Z.of_nat (length (fst st)) = j /\ j <= Z.of_nat layer_slots).
    assert (HP : P layers (s, g1)).
    { match type of Hloop with
      | for_range 0 layers ?body ?init = _ =>
          apply (for_range_ok_inv P body 0 layers init (s, g1) Hnn Hloop)
      end.
      - split; [reflexivity | cbn; lia].
      - intros j [sj gj] st' Hj Hstep [Hlen _]. cbn [fst] in Hlen.
        apply bind_ok in Hstep as ([t gt] & _ & Hstep).
        destruct (Z.ltb_spec j (Z.of_nat layer_slots)); [|discriminate].
        injection Hstep as <-. unfold P. cbn [fst].
        rewrite length_app. cbn [length]. lia. }
    destruct HP as [Hlen Hmax]. cbn [fst] in Hlen. lia.
  - rewrite for_range_empty in Hloop by lia.
    injection Hloop as <- _. cbn in E0. lia.
Qed.

(** X11: [make_explosion] keeps its layers in an array of ten pointers and
    returns the first of them: whenever it returns, the number of layers
    was between 1 and 10. *)
Theorem make_explosion_layer_bound
    (seconds : float) (layers : Z) (g : rng) (r : sound * rng) :
  make_explosion seconds layers g = Ok r ->
  1 <= layers <= Z.of_nat layer_slots.
Proof. apply make_explosion_ok_layers. Qed.

Lemma make_explosion_layer_bound_witness :
  exists r,
    make_explosion 0.0001%float 1
      (mkRng (fun k => 7919 * Z.of_nat k) 0) = Ok r /\
    1 <= 1 <= Z.of_nat layer_slots.
Proof.
  assert (E : exists r,
             make_explosion 0.0001%float 1
               (mkRng (fun k => 7919 * Z.of_nat k) 0) = Ok r)
    by (vm_compute; eexists; reflexivity).
  destruct E as [r E]. exists r. split; [exact E|].
  exact (make_explosion_layer_bound _ _ _ _ E).
Defined.

(** ** Random integers *)

Lemma land_mask_range (r : Z) (bits : Z) :
  0 <= bits -> 0 <= Z.land r (Z.ones bits) < 2 ^ bits.
Proof.
  intros Hb. rewrite Z.land_ones by exact Hb.
  apply Z.mod_pos_bound. apply Z.pow_pos_nonneg; lia.
Qed.

Lemma land_24_range (r : Z) : 0 <= Z.land r 16777215 <= 16777215.
Proof.
  pose proof (land_mask_range r 24 ltac:(lia)) as H.
  change (Z.ones 24) with 16777215 in H. change (2 ^ 24) with 16777216 in H.
  lia.
Qed.

Lemma land_16_range (r : Z) : 0 <= Z.land r 65535 <= 65535.
Proof.
  pose proof (land_mask_range r 16 ltac:(lia)) as H.
  change (Z.ones 16) with 65535 in H. change (2 ^ 16) with 65536 in H.
  lia.
Qed.

Lemma int_mul_ok (a b : Z) :
  INT_MIN <= a * b <= INT_MAX -> int_mul a b = Ok (a * b).
Proof.
  intros H. unfold int_mul, in_int_range.
  destruct (Z.leb_spec INT_MIN (a * b)); [|lia].
  destruct (Z.leb_spec (a * b) INT_MAX); [reflexivity|lia].
Qed.

Lemma int_mul_overflow (a b : Z) :
  INT_MAX < a * b -> int_mul a b = Fault IntOverflow.
Proof.
  intros H. unfold int_mul, in_int_range.
  destruct (Z.leb_spec (a * b) INT_MAX); [lia|].
  now rewrite andb_false_r.
Qed.

Lemma scaled_quot_range (n x m : Z) :
  0 <= n -> 0 <= x <= m -> 0 < m -> 0 <= Z.quot (n * x) m <= n.
Proof.
  intros Hn Hx Hm. rewrite Z.quot_div_nonneg by nia. split.
  - apply Z.div_pos; nia.
  - apply Z.div_le_upper_bound; nia.
Qed.

(** X12: [irand n], for [n >= 0], multiplies [n] by the low 24 bits [x] of
    one value of [rand] before dividing: when [n * x] fits an [int] the
    result lies in [0 .. n] and one value has been drawn; when it does not,
    the product overflows. *)
Theorem irand_range_or_overflow (n : Z) (g : rng) :
  0 <= n ->
  let x := Z.land (rand_values g (rand_calls g)) 16777215 in
  (n * x <= INT_MAX ->
   exists q,
     irand n g = Ok (q, mkRng (rand_values g) (S (rand_calls g))) /\
     q = n * x / 16777215 /\
     0 <= q <= n) /\
  (INT_MAX < n * x -> irand n g = Fault IntOverflow).
Proof.
  intros Hn x. pose proof (land_24_range (rand_values g (rand_calls g))) as Hx.
  fold x in Hx. unfold irand, rand. fold x. split.
  - intros Hfit. rewrite int_mul_ok by (unfold INT_MIN, INT_MAX in *; nia).
    run_bind. eexists. split; [reflexivity|]. split.
    + apply Z.quot_div_nonneg; nia.
    + apply scaled_quot_range; lia.
  - intros Hover. now rewrite int_mul_overflow.
Qed.

Lemma irand_range_or_overflow_witness :
  (exists q, irand 100 (mkRng (fun _ => 8388608) 0)
             = Ok (q, mkRng (fun _ => 8388608) 1) /\ 0 <= q <= 100) /\
  irand 8820 (mkRng (fun _ => 8388608) 0) = Fault IntOverflow.
Proof.
  split.
  - destruct (irand_range_or_overflow 100 (mkRng (fun _ => 8388608) 0))
      as [Hok _]; [discriminate|].
    destruct Hok as (q & Hrun & _ & Hq); [vm_compute; discriminate|].
    exists q. split; [exact Hrun | exact Hq].
  - destruct (irand_range_or_overflow 8820 (mkRng (fun _ => 8388608) 0))
      as [_ Hover]; [discriminate|].
    apply Hover. vm_compute. reflexivity.
Defined.

(** X13: at the settings the program starts with, the offset of a
    pre-explosion is [irand 8820] (0.2 seconds of frames), and the product
    overflows [int] for every value of [rand] whose low 24 bits are 243479
    or more. *)
Theorem default_preexplosion_offset_overflows (g : rng) :
  seconds_to_frames (preexplosion_delay default_explosion_def) = Ok 8820 /\
  (243479 <= Z.land (rand_values g (rand_calls g)) 16777215 ->
   irand 8820 g = Fault IntOverflow).
Proof.
  split; [vm_compute; reflexivity|].
  intros Hx. unfold irand, rand.
  rewrite int_mul_overflow by (unfold INT_MAX; lia). reflexivity.
Qed.

Lemma default_preexplosion_offset_overflows_witness :
  irand 8820 (mkRng (fun _ => 2147483647) 0) = Fault IntOverflow.
Proof.
  apply (default_preexplosion_offset_overflows (mkRng (fun _ => 2147483647) 0)).
  vm_compute. discriminate.
Defined.

(** X14: the delay of an early reflection is always computed without
    overflow and lies between 0 and 13230 frames (300 ms). *)
Theorem early_delay_range (r : Z) :
  exists d, early_delay r = Ok d /\ 0 <= d <= 13230.
Proof.
  pose proof (land_16_range r) as Hx. unfold early_delay.
  change (3 * 4410) with 13230.
  rewrite int_mul_ok by (unfold INT_MIN, INT_MAX; lia). run_bind.
  eexists. split; [reflexivity|]. apply scaled_quot_range; lia.
Qed.

(** X15: the delay of a late reflection multiplies 88200 by the low 16
    bits [x] of a value of [rand]: for [x <= 24347] the delay is at most
    32767 frames, well short of the 2000 ms (88200 frames) of the comment in
    the code, and for every larger [x] the product overflows [int]. *)
Theorem late_delay_range_or_overflow (r : Z) :
  (Z.land r 65535 <= 24347 ->
   exists d, late_delay r = Ok d /\ 0 <= d <= 32767) /\
  (24348 <= Z.land r 65535 -> late_delay r = Fault IntOverflow).
Proof.
  pose proof (land_16_range r) as Hx. unfold late_delay.
  change (2 * 44100) with 88200. split.
  - intros Hfit. rewrite int_mul_ok by (unfold INT_MIN, INT_MAX; lia).
    run_bind. eexists. split; [reflexivity|].
    rewrite Z.quot_div_nonneg by lia. split.
    + apply Z.div_pos; lia.
    + apply Z.lt_succ_r. apply Z.div_lt_upper_bound; lia.
  - intros Hover. rewrite int_mul_overflow by (unfold INT_MAX; lia).
    reflexivity.
Qed.

Lemma late_delay_range_or_overflow_witness :
  (exists d, late_delay 20000 = Ok d /\ 0 <= d <= 32767) /\
  late_delay 40000 = Fault IntOverflow.
Proof.
  split.
  - apply (late_delay_range_or_overflow 20000). vm_compute. discriminate.
  - apply (late_delay_range_or_overflow 40000). vm_compute. discriminate.
Defined.

(** ** [poor_mans_reverb] *)

Lemma for_range_ok_preserve {St : Type} (P : St -> Prop)
    (body : Z -> St -> result St) (a b : Z) (st st' : St) :
  for_range a b body st = Ok st' ->
  P st ->
  (forall j s s', body j s = Ok s' -> P s -> P s') ->
  P st'.
Proof.
  intros Hrun HP Hstep. unfold for_range in Hrun.
  apply (for_up_ok_inv (fun _ => P) body _ a st st' Hrun HP).
  intros j s s' _. apply Hstep.
Qed.

Lemma add_sound_ok_shape (a b t : sound) :
  add_sound a b = Ok t ->
  nsamples t = Z.max (nsamples a) (nsamples b) /\
  Z.of_nat (length (data t)) = Z.max (nsamples a) (nsamples b).
Proof.
  unfold add_sound. set (n := Z.max (nsamples a) (nsamples b)).
  replace (if nsamples a <? nsamples b then nsamples b else nsamples a) with n
    by (unfold n; destruct (Z.ltb_spec (nsamples a) (nsamples b)); lia).
  intros H. apply bind_ok in H as (d & Hd & H).
  unfold malloc_doubles in Hd. destruct (Z.ltb_spec n 0) as [|Hn]; [discriminate|].
  injection Hd as <-.
  pose (P := fun (j : Z) (st : sound) =>
    nsamples st = j /\ Z.of_nat (length (data st)) = n).
  apply (for_range_ok_inv P (add_sound_step a b) 0 n _ t Hn H).
  - unfold P. cbn [data nsamples]. rewrite length_replicate. lia.
  - intros j st st' Hj Hstep [Hns Hlen]. unfold add_sound_step in Hstep.
    apply bind_ok in Hstep as (d0 & Hd0 & Hstep).
    apply store_inv in Hd0 as [_ ->].
    apply bind_ok in Hstep as (d1 & Hd1 & Hstep).
    assert (Hlen1 : length d1 = length (data st)).
    { destruct (j <? nsamples a).
      - apply bind_ok in Hd1 as (x & _ & Hd1).
        apply bind_ok in Hd1 as (y & _ & Hd1).
        apply store_inv in Hd1 as [_ ->]. now rewrite !length_insert.
      - injection Hd1 as <-. now rewrite length_insert. }
    apply bind_ok in Hstep as (d2 & Hd2 & Hstep).
    assert (Hlen2 : length d2 = length (data st)).
    { destruct (j <? nsamples b).
      - apply bind_ok in Hd2 as (x & _ & Hd2).
        apply bind_ok in Hd2 as (y & _ & Hd2).
        apply store_inv in Hd2 as [_ ->]. now rewrite length_insert.
      - injection Hd2 as <-. exact Hlen1. }
    injection Hstep as <-. unfold P. cbn [data nsamples]. lia.
Qed.

Lemma sliding_low_pass_ok_nsamples (s o : sound) (alpha1 alpha2 : float) :
  sliding_low_pass s alpha1 alpha2 = Ok o -> nsamples o = nsamples s.
Proof.
  unfold sliding_low_pass. intros H.
  apply bind_ok in H as (d & _ & H). apply bind_ok in H as (x & _ & H).
  apply bind_ok in H as (d1 & _ & H). apply bind_ok in H as (d2 & _ & H).
  injection H as <-. reflexivity.
Qed.

Lemma delay_ok_nsamples (s s' : sound) (delay_samples : Z) :
  delay_effect_in_place s delay_samples = Ok s' -> nsamples s' = nsamples s.
Proof.
  unfold delay_effect_in_place. intros H.
  apply bind_ok in H as (d & _ & H). injection H as <-. reflexivity.
Qed.

Lemma amplify_ok_nsamples (s s' : sound) (gain : float) :
  amplify_in_place s gain = Ok s' -> nsamples s' = nsamples s.
Proof.
  unfold amplify_in_place. intros H.
  apply bind_ok in H as (d & _ & H). injection H as <-. reflexivity.
Qed.

Lemma reflection_keeps_length (alpha1 alpha2 gain_span : float)
    (delay_of : Z -> result Z) (i N : Z) (st st' : sound * sound * rng) :
  reflection alpha1 alpha2 gain_span delay_of i st = Ok st' ->
  (nsamples (fst (fst st)) = N /\
   Z.of_nat (length (data (fst (fst st)))) = N /\
   nsamples (snd (fst st)) = N) ->
  nsamples (fst (fst st')) = N /\
  Z.of_nat (length (data (fst (fst st')))) = N /\
  nsamples (snd (fst st')) = N.
Proof.
  destruct st as [[w e] g]. cbn [fst snd]. unfold reflection.
  intros H (Hw & Hlw & He).
  apply bind_ok in H as (echo2 & Hlp & H).
  destruct (drand g) as [r g1]. apply bind_ok in H as (e1 & Hamp & H).
  destruct (rand g1) as [r2 g2]. apply bind_ok in H as (dl & _ & H).
  apply bind_ok in H as (echo3 & Hdel & H).
  apply bind_ok in H as (w1 & Hacc & H).
  injection H as <-. cbn [fst snd].
  apply sliding_low_pass_ok_nsamples in Hlp.
  apply amplify_ok_nsamples in Hamp.
  apply delay_ok_nsamples in Hdel.
  unfold accumulated in Hacc. apply bind_ok in Hacc as (t & Ht & Hacc).
  injection Hacc as <-. cbn [data nsamples].
  apply add_sound_ok_shape in Ht as [Hnt Hlt]. lia.
Qed.

Lemma reverb_ok_shape
    (s : sound) (early_refls late_refls : Z) (g g' : rng) (w : sound) :
  poor_mans_reverb s early_refls late_refls g = Ok (w, g') ->
  nsamples w = nsamples s * 2 /\
  Z.of_nat (length (data w)) = nsamples s * 2.
Proof.
  unfold poor_mans_reverb. intros H.
  apply bind_ok in H as (n2 & Hn2 & H).
  unfold int_mul in Hn2. destruct (in_int_range (nsamples s * 2)); [|discriminate].
  injection Hn2 as <-.
  apply bind_ok in H as (w0 & Hw0 & H).
  unfold alloc_sound, malloc_doubles in Hw0.
  destruct (Z.ltb_spec (nsamples s * 2) 0) as [|Hnn]; [discriminate|].
  cbn in Hw0. injection Hw0 as <-. cbn [data] in H.
  apply bind_ok in H as (d & Hd & H).
  assert (Hlen : length d = Z.to_nat (nsamples s * 2)).
  { rewrite <- (length_replicate (Z.to_nat (nsamples s * 2)) 0%float).
    apply (for_range_ok_preserve
             (fun d' => length d'
                        = length (replicate (Z.to_nat (nsamples s * 2)) 0%float))
             _ _ _ _ d Hd); [reflexivity|].
    intros j d1 d2 Hstep Hd1.
    apply bind_ok in Hstep as (x & _ & Hstep).
    apply store_inv in Hstep as [_ ->]. now rewrite length_insert. }
  apply bind_ok in H as (echo & Hecho & H).
  assert (Hne : nsamples echo = nsamples s * 2).
  { unfold copy_sound in Hecho. apply bind_ok in Hecho as (o & _ & Hecho).
    cbn [data nsamples] in Hecho.
    destruct (nsamples s * 2 <=? Z.of_nat (length d)); [|discriminate].
    injection Hecho as <-. reflexivity. }
  apply bind_ok in H as ([[w1 e1] g1] & Hearly & H).
  apply bind_ok in H as ([[w2 e2] g2] & Hlate & H).
  injection H as <- <-.
  pose (P := fun st : sound * sound * rng =>
    nsamples (fst (fst st)) = nsamples s * 2 /\
    Z.of_nat (length (data (fst (fst st)))) = nsamples s * 2 /\
    nsamples (snd (fst st)) = nsamples s * 2).
  assert (H1 : P (w1, e1, g1)).
  { apply (for_range_ok_preserve P _ _ _ _ _ Hearly).
    - unfold P. cbn [fst snd data nsamples]. lia.
    - intros j st st' Hstep HP.
      exact (reflection_keeps_length _ _ _ _ _ _ _ _ Hstep HP). }
  assert (H2 : P (w2, e2, g2)).
  { apply (for_range_ok_preserve P _ _ _ _ _ Hlate H1).
    intros j st st' Hstep HP.
    exact (reflection_keeps_length _ _ _ _ _ _ _ _ Hstep HP). }
  destruct H2 as (Hw & Hl & _). cbn [fst snd] in Hw, Hl. auto.
Qed.

(** X16: whenever [poor_mans_reverb] returns, the sound it returns has
    exactly twice the samples of the dry sound, in a block of exactly that
    size, however many reflections were added. *)
Theorem reverb_doubles_length
    (s : sound) (early_refls late_refls : Z) (g g' : rng) (w : sound) :
  poor_mans_reverb s early_refls late_refls g = Ok (w, g') ->
  nsamples w = nsamples s * 2 /\
  Z.of_nat (length (data w)) = nsamples s * 2.
Proof. apply reverb_ok_shape. Qed.

Lemma reverb_doubles_length_witness :
  exists w g',
    poor_mans_reverb (mkSound [1%float; 2%float; 3%float] 3) 2 1
      (mkRng (fun k => 1000 * Z.of_nat k) 0) = Ok (w, g') /\
    nsamples w = 6.
Proof.
  assert (E : exists w g',
             poor_mans_reverb (mkSound [1%float; 2%float; 3%float] 3) 2 1
               (mkRng (fun k => 1000 * Z.of_nat k) 0) = Ok (w, g'))
    by (vm_compute; do 2 eexists; reflexivity).
  destruct E as (w & g' & E). exists w, g'. split; [exact E|].
  destruct (reverb_doubles_length _ _ _ _ _ _ E) as [Hn _].
  rewrite Hn. reflexivity.
Defined.

(** X17: with no reflections [poor_mans_reverb] returns the dry samples
    followed by as many samples of silence, and draws no random value. *)
Theorem reverb_without_reflections
    (s : sound) (early_refls late_refls : Z) (g : rng) :
  well_formed s ->
  nsamples s * 2 <= INT_MAX ->
  early_refls <= 0 ->
  late_refls <= 0 ->
  poor_mans_reverb s early_refls late_refls g
  = Ok (mkSound (take (Z.to_nat (nsamples s)) (data s)
                 ++ replicate (Z.to_nat (nsamples s)) 0%float)
          (nsamples s * 2), g).
Proof.
  unfold well_formed. intros Hwf Hmax Hearly Hlate.
  set (n := nsamples s) in *.
  unfold poor_mans_reverb. fold n.
  rewrite int_mul_ok by (unfold INT_MIN, INT_MAX in *; lia). run_bind.
  unfold alloc_sound at 1. unfold malloc_doubles.
  destruct (Z.ltb_spec (n * 2) 0); [lia|]. run_bind. cbn [data].
  destruct (copy_loop_spec (data s) (replicate (Z.to_nat (n * 2)) 0%float) n)
    as (d & Hrun & Hlen & Hlo & Hhi);
    [lia | rewrite length_replicate; lia |].
  rewrite Hrun. run_bind. rewrite length_replicate in Hlen.
  unfold copy_sound, alloc_sound, malloc_doubles. cbn [data nsamples].
  destruct (Z.ltb_spec (n * 2) 0); [lia|]. run_bind.
  destruct (Z.leb_spec (n * 2) (Z.of_nat (length d))); [|lia]. run_bind.
  rewrite for_range_empty by lia. run_bind.
  rewrite for_range_empty by lia. run_bind.
  do 3 f_equal. apply list_eq. intros k.
  destruct (decide (Z.of_nat k < n)) as [Hk|Hk].
  - rewrite Hlo by exact Hk.
    rewrite lookup_app_l by (rewrite length_take; lia).
    now rewrite lookup_take_lt by lia.
  - rewrite Hhi by lia.
    rewrite lookup_app_r by (rewrite length_take; lia).
    rewrite length_take.
    destruct (decide (Z.of_nat k < n * 2)) as [Hk2|Hk2].
    + rewrite !lookup_replicate_2 by lia. reflexivity.
    + rewrite (proj1 (lookup_replicate_None _ _ _)) by lia.
      symmetry. apply lookup_replicate_None. lia.
Qed.

Lemma reverb_without_reflections_witness :
  poor_mans_reverb (mkSound [1%float; 2%float; 9%float] 2) 0 0
    (mkRng (fun _ => 0) 0)
  = Ok (mkSound [1%float; 2%float; 0%float; 0%float] 4, mkRng (fun _ => 0) 0).
Proof.
  apply (reverb_without_reflections
           (mkSound [1%float; 2%float; 9%float] 2) 0 0 (mkRng (fun _ => 0) 0)).
  - vm_compute. split; discriminate.
  - vm_compute. discriminate.
  - reflexivity.
  - reflexivity.
Defined.

Lemma reverb_empty_fault (d : list float) (early_refls late_refls : Z) (g : rng) :
  1 <= early_refls \/ 1 <= late_refls ->
  poor_mans_reverb (mkSound d 0) early_refls late_refls g
  = Fault (OutOfBounds Read 0 0).
Proof.
  intros Hrefl. unfold poor_mans_reverb. cbn [data nsamples].
  change (int_mul 0 2) with (Ok 0 : result Z). run_bind.
  change (alloc_sound 0) with (Ok (mkSound [] 0)). run_bind. cbn [data].
  rewrite for_range_empty by lia. run_bind.
  change (copy_sound (mkSound [] 0)) with (Ok (mkSound [] 0)). run_bind.
  destruct (Z.le_gt_cases 1 early_refls) as [He|He].
  - rewrite (for_range_first_fault _ 0 early_refls _ (OutOfBounds Read 0 0));
      [reflexivity | lia | reflexivity].
  - rewrite for_range_empty by lia. run_bind.
    rewrite (for_range_first_fault _ 0 late_refls _ (OutOfBounds Read 0 0));
      [reflexivity | lia | reflexivity].
Qed.

(** X18: on a dry sound of no samples, one reflection is enough for
    [poor_mans_reverb] to read a sample outside its (empty) block: the first
    low-pass of the echo copies sample 0. *)
Theorem reverb_of_nothing_faults
    (d : list float) (early_refls late_refls : Z) (g : rng) :
  1 <= early_refls \/ 1 <= late_refls ->
  poor_mans_reverb (mkSound d 0) early_refls late_refls g
  = Fault (OutOfBounds Read 0 0).
Proof. apply reverb_empty_fault. Qed.

Lemma reverb_of_nothing_faults_witness :
  poor_mans_reverb (mkSound [] 0) 10 50 (mkRng (fun _ => 0) 0)
  = Fault (OutOfBounds Read 0 0).
Proof.
  apply (reverb_of_nothing_faults [] 10 50 (mkRng (fun _ => 0) 0)).
  left. vm_compute. discriminate.
Defined.

(** X19: the two steps [main] runs after the speed change, the trim and the
    reverb, fail together on a sound that is silent throughout: the trim
    leaves no sample, and the reverb, with one reflection or more, reads
    outside the empty block. *)
Theorem silent_sound_breaks_reverb
    (s : sound) (early_refls late_refls : Z) (g : rng) :
  well_formed s ->
  Forall (fun x => is_silent x = true) (take (Z.to_nat (nsamples s)) (data s)) ->
  1 <= early_refls \/ 1 <= late_refls ->
  (s ← trim_trailing_silence s;
   poor_mans_reverb s early_refls late_refls g)
  = Fault (OutOfBounds Read 0 0).
Proof.
  intros Hwf Hsil Hrefl. rewrite (trim_length_spec s Hwf). run_bind.
  rewrite (count_silent_all _ Hsil), length_take.
  unfold well_formed in Hwf.
  replace (nsamples s - Z.of_nat (Z.to_nat (nsamples s) `min` length (data s)))
    with 0 by lia.
  apply reverb_empty_fault. exact Hrefl.
Qed.

Lemma silent_sound_breaks_reverb_witness :
  (s ← trim_trailing_silence (mkSound [0%float; 0.000001%float] 2);
   poor_mans_reverb s 10 50 (mkRng (fun _ => 0) 0))
  = Fault (OutOfBounds Read 0 0).
Proof.
  apply (silent_sound_breaks_reverb
           (mkSound [0%float; 0.000001%float] 2) 10 50 (mkRng (fun _ => 0) 0)).
  - vm_compute. split; discriminate.
  - repeat constructor.
  - left. vm_compute. discriminate.
Defined.

(** ** Random values drawn by [make_explosion] *)

Lemma make_layer_rng (seconds : float) (layers i : Z) (g g' : rng) (t : sound) :
  make_layer seconds layers i g = Ok (t, g') ->
  exists frames,
    seconds_to_frames seconds = Ok frames /\
    0 <= frames /\
    g' = mkRng (rand_values g) (rand_calls g + Z.to_nat frames).
Proof.
  unfold make_layer. intros H.
  apply bind_ok in H as (frames & Hf & H).
  apply bind_ok in H as ([t0 g0] & Hnoise & H).
  apply bind_ok in H as (t1 & _ & H).
  apply bind_ok in H as (t2 & _ & H).
  apply bind_ok in H as (t3 & _ & H).
  injection H as _ <-.
  exists frames. split; [exact Hf|].
  destruct (Z.le_gt_cases 0 frames) as [Hnn|Hneg].
  - split; [exact Hnn|].
    destruct (make_noise_spec frames g Hnn) as (s & Hrun & _).
    rewrite Hrun in Hnoise. now injection Hnoise as _ <-.
  - exfalso. unfold make_noise, alloc_sound, malloc_doubles in Hnoise.
    destruct (Z.ltb_spec frames 0); [discriminate|lia].
Qed.

(** X20: whenever [make_explosion] returns, it has drawn exactly
    [layers * frames] values from [rand], [frames] being the length in
    frames of the duration asked for: every layer starts from [frames]
    samples of fresh noise and nothing else is random. *)
Theorem make_explosion_draws
    (seconds : float) (layers : Z) (g : rng) (r : sound * rng) :
  make_explosion seconds layers g = Ok r ->
  exists frames,
    seconds_to_frames seconds = Ok frames /\
    0 <= frames /\
    snd r = mkRng (rand_values g) (rand_calls g + Z.to_nat (layers * frames)).
Proof.
  unfold make_explosion. intros H.
  apply bind_ok in H as ([s g1] & Hloop & H).
  apply bind_ok in H as (s0 & Hs0 & H).
  apply bind_ok in H as (s1 & _ & H).
  apply bind_ok in H as (s2 & _ & H).
  injection H as <-. cbn [snd].
  destruct (s !! 0%nat) as [s0'|] eqn:E0; [|discriminate].
  apply lookup_lt_Some in E0.
  destruct (Z.le_gt_cases 0 layers) as [Hnn|Hneg].
  2:{ rewrite for_range_empty in Hloop by lia.
      injection Hloop as <- _. cbn in E0. lia. }
  pose (frames := match seconds_to_frames seconds with
                  | Ok f => f
                  | Fault _ => 0
                  end).
  pose (P := fun (j : Z) (st : list sound * rng) =>
    Z.of_nat (length (fst st)) = j /\
    (1 <= j -> seconds_to_frames seconds = Ok frames /\ 0 <= frames) /\
    snd st = mkRng (rand_values g) (rand_calls g + Z.to_nat (j * frames))).
  assert (HP : P layers (s, g1)).
  { match type of Hloop with
    | for_range 0 layers ?body ?init = _ =>
        apply (for_range_ok_inv P body 0 layers init (s, g1) Hnn Hloop)
    end.
    - unfold P. cbn [fst snd length]. split; [reflexivity|].
      split; [intros; lia|]. destruct g as [vals calls]. cbn. f_equal. lia.
    - intros j [sj gj] st' Hj Hstep (Hlen & _ & Hg). cbn [fst snd] in *.
      apply bind_ok in Hstep as ([t gt] & Hlayer & Hstep).
      destruct (j <? Z.of_nat layer_slots); [|discriminate].
      injection Hstep as <-.
      apply make_layer_rng in Hlayer as (f & Hf & Hfnn & ->).
      assert (Hfr : frames = f) by (unfold frames; now rewrite Hf).
      subst f gj. unfold P. cbn [fst snd rand_values rand_calls].
      split; [rewrite length_app; cbn [length]; lia|].
      split; [auto|]. f_equal. nia. }
  destruct HP as (Hlen & Hfr & Hg). cbn [fst snd] in *.
  destruct (Hfr ltac:(lia)) as [Hf Hfnn].
  exists frames. auto.
Qed.

Lemma make_explosion_draws_witness :
  exists r,
    make_explosion 0.0001%float 2
      (mkRng (fun k => 7919 * Z.of_nat k) 0) = Ok r /\
    rand_calls (snd r) = 8%nat.
Proof.
  assert (E : exists r,
             make_explosion 0.0001%float 2
               (mkRng (fun k => 7919 * Z.of_nat k) 0) = Ok r)
    by (vm_compute; eexists; reflexivity).
  destruct E as [r E]. exists r. split; [exact E|].
  destruct (make_explosion_draws _ _ _ _ E) as (frames & Hf & _ & ->).
  vm_compute in Hf. injection Hf as <-. reflexivity.
Defined.

(** ** [accumulate_sound] with one pointer given twice *)

(** X21: [accumulate_sound (p, p)] is safe: the sum is built before the
    old block is released, and [*p] ends up holding each of its samples
    added to itself; no other sound changes. *)
Theorem accumulate_sound_into_itself (h : heap) (p : positive) (a : sound) :
  h !! p = Some a ->
  well_formed a ->
  exists h',
    accumulate_sound p p h = Ok h' /\
    h' !! p = Some (mix_spec a a) /\
    nsamples (mix_spec a a) = nsamples a /\
    (forall (k : nat) x, Z.of_nat k < nsamples a -> data a !! k = Some x ->
       data (mix_spec a a) !! k = Some (0 + x + x)%float) /\
    (forall q, q <> p -> h' !! q = h !! q).
Proof.
  intros Hp Hwf.
  exists (<[p := mix_spec a a]> (<[p := free_sound a]> h)).
  split; [|split; [|split; [|split]]].
  - unfold accumulate_sound, deref. rewrite Hp. run_bind.
    rewrite (add_sound_refines_mix a a Hwf Hwf). reflexivity.
  - apply lookup_insert_eq.
  - unfold mix_spec. cbn [nsamples]. lia.
  - intros k x Hk Hx. unfold mix_spec. cbn [data].
    rewrite list_lookup_fmap, lookup_seq_lt by lia.
    cbn [fmap option_fmap option_map]. unfold mix_sample, sample_or_zero.
    cbn [plus]. destruct (Z.ltb_spec (Z.of_nat k) (nsamples a)); [|lia].
    rewrite Hx. reflexivity.
  - intros q Hq. rewrite !lookup_insert_ne by congruence. reflexivity.
Qed.

Lemma accumulate_sound_into_itself_witness :
  let a := mkSound [1%float; 2.5%float] 2 in
  let h : heap := <[1%positive := a]> ∅ in
  exists h',
    accumulate_sound 1 1 h = Ok h' /\
    h' !! 1%positive = Some (mkSound [2%float; 5%float] 2).
Proof.
  intros a h.
  assert (Hp : h !! 1%positive = Some a) by reflexivity.
  assert (Hwf : well_formed a) by (vm_compute; split; discriminate).
  destruct (accumulate_sound_into_itself h 1 a Hp Hwf) as (h' & Hrun & Hmix & _).
  exists h'. split; [exact Hrun|]. rewrite Hmix. reflexivity.
Defined.

(** ** The sound [main] hands to [save_file] *)


